(** * Reaction trainer (src/app/page.tsx): timing and state-machine core

    A shallow embedding of the [ReactionsPage] component: its React state
    ([useState]), its mutable refs ([useRef]), the closures its callbacks
    capture, and the part of the browser host it talks to (timers,
    animation frames, [localStorage]).

    Numbers.  JavaScript numbers are IEEE 754 doubles.  A finite double
    is modelled by the rational number it denotes ([Q]); every arithmetic
    operation of the source on such numbers ([-], [/], [+], [*]) is the
    exact operation followed by rounding to the nearest double, ties to
    even ([roundDouble]).  [Math.floor] and [Math.round] are exact on a
    double; the values that went through [Math.round] are integers [Z].
    [bestRef] can also hold [Infinity] and [NaN], so it has its own type
    [JsNum].

    React.  A state setter is modelled as an immediate write of the state
    slot, and every handler is followed by [commit], the re-render that
    re-subscribes the window listeners when one of the effect's
    dependencies ([gameState], [systemLatency]) changed.  What a callback
    reads from its defining render is passed to it explicitly as a
    [Closure]. *)

From Stdlib Require Import ZArith QArith Qround Qpower Lia Lqa List.
From stdpp Require Import base option list gmap strings pretty sorting.

Local Open Scope Z_scope.

(** ** JavaScript numbers and the [Math] functions used *)

Inductive JsNum : Type :=
  | JFin (q : Q)
  | JPosInf
  | JNegInf
  | JNaN.

(** Truthiness of a number: [0] and [NaN] are falsy. *)
Definition truthy (n : JsNum) : bool :=
  match n with
  | JFin q => negb (Qeq_bool q 0)
  | JPosInf | JNegInf => true
  | JNaN => false
  end.

(** [n || Infinity]. *)
Definition orInfinity (n : JsNum) : JsNum :=
  if truthy n then n else JPosInf.

(** [t < n] for an integer [t]; every comparison with [NaN] is false. *)
Definition ltNum (t : Z) (n : JsNum) : bool :=
  match n with
  | JFin q => negb (Qle_bool q (inject_Z t))
  | JPosInf => true
  | JNegInf => false
  | JNaN => false
  end.

(** [Math.round]: the nearest integer, halves rounded towards +Infinity. *)
Definition Math_round (x : Q) : Z := Qfloor (x + (1 # 2)).

(** [Math.floor]. *)
Definition Math_floor (x : Q) : Z := Qfloor x.

(** [String(t)] for an integer-valued number. *)
Definition String_of (t : Z) : string := pretty t.

(** ** Double arithmetic

    A double is [m * 2^e] with an integer significand [|m| < 2^53] and
    an exponent [e >= -1074].  The result of an operation is the double
    nearest to the exact result; of two nearest doubles the one with the
    even significand is taken. *)

(** The integer nearest to [x], a half going to the even neighbour. *)
Definition roundEven (x : Q) : Z :=
  let f := Qfloor x in
  match (x - inject_Z f ?= 1 # 2)%Q with
  | Lt => f
  | Gt => f + 1
  | Eq => if Z.even f then f else f + 1
  end.

(** The binary exponent of a positive rational: [2^k <= x < 2^(k+1)]. *)
Definition ilog2 (x : Q) : Z :=
  let k := Z.log2 (Qnum x) - Z.log2 (Zpos (Qden x)) in
  if Qle_bool (2 ^ k) x then k else k - 1.

(** The exponent of the last place of the doubles around [x > 0]:
    53 significant bits, and no exponent below that of the subnormal
    numbers. *)
Definition ulpExp (x : Q) : Z := Z.max (-1074) (ilog2 x - 52).

Definition roundPos (x : Q) : Q :=
  (inject_Z (roundEven (x / 2 ^ ulpExp x)) * 2 ^ ulpExp x)%Q.

(** The double nearest to [x].  Overflow to [Infinity] is not modelled:
    the numbers rounded below are differences, quotients, sums and
    products of time stamps, of reaction times and of small constants,
    far below [2^1024]. *)
Definition roundDouble (x : Q) : Q :=
  match Qnum x with
  | Z0 => 0%Q
  | Zpos _ => roundPos x
  | Zneg _ => (- roundPos (- x))%Q
  end.

(** The operators [x - y], [x + y], [x * y] and [x / y] on doubles. *)
Definition fsub (x y : Q) : Q := roundDouble (x - y).
Definition fadd (x y : Q) : Q := roundDouble (x + y).
Definition fmul (x y : Q) : Q := roundDouble (x * y).
Definition fdiv (x y : Q) : Q := roundDouble (x / y).

(** ** Sorting an array of numbers with the comparator [(a, b) => a - b] *)

#[global] Instance Qle_decision (x y : Q) : Decision (Qle x y).
Proof.
  destruct (Qlt_le_dec y x) as [H | H].
  - right. apply Qlt_not_le. exact H.
  - left. exact H.
Defined.

Definition sortNumbers (l : list Q) : list Q := merge_sort Qle l.

(** ** Data model *)

Inductive GameState : Type :=
  | idle | countdown | waiting | reacting | result.

#[global] Instance GameState_eq_dec : EqDecision GameState.
Proof. solve_decision. Defined.

(** [interface Result]: [time] is [null] for a jump start. *)
Record Result : Type := {
  time : option Z;
  jumpStart : bool;
  timestamp : string
}.

(** The [useState] slots. *)
Record UI : Type := {
  gameState : GameState;
  activeLights : Z;
  reactionTime : option Z;
  results : list Result;
  systemLatency : Z;
  isCalibrating : bool;
  jumpStartFlag : bool          (* the [jumpStart] state slot *)
}.

(** The [useRef] cells.  A handle is [null] ([None]) or a number. *)
Record Refs : Type := {
  rafRef : option nat;
  timeoutRef : option nat;
  lightsStartRef : Q;
  lightsOutTimeRef : Q;
  runningRef : bool;
  bestRef : JsNum
}.

(** What a timer callback is: the calibration sample closure, which
    remembers its [t0], or the lights-out closure. *)
Inductive TimerCb : Type :=
  | SampleCb (t0 : Q)
  | LightsOutCb.

Record Timer : Type := {
  t_id : nat;
  t_delay : Q;
  t_cb : TimerCb
}.

(** The browser host: storage, pending timers, pending animation-frame
    requests (each [frame] closure carries the [activeLights] it
    captured), and the next handles to give out.  Handles are positive. *)
Record Host : Type := {
  localStorage : gmap string string;
  timers : list Timer;
  rafs : list (nat * Z);
  nextTimer : nat;
  nextRaf : nat
}.

(** The variables local to the calibration effect. *)
Record Calib : Type := {
  samples : list Q;
  count : nat
}.

(** The values of a render that the callbacks defined in it read. *)
Record Closure : Type := {
  c_gameState : GameState;
  c_activeLights : Z;
  c_systemLatency : Z
}.

Record World : Type := {
  ui : UI;
  refs : Refs;
  host : Host;
  calib : Calib;
  listener : Closure     (* the render whose handlers are subscribed *)
}.

(** ** State setters and ref writes

    The handlers thread the [World] explicitly; each [set*] below is one
    assignment of the source ([setGameState(..)], [runningRef.current = ..]). *)

Definition with_ui (f : UI → UI) (w : World) : World :=
  {| ui := f (ui w); refs := refs w; host := host w; calib := calib w;
     listener := listener w |}.

Definition with_refs (f : Refs → Refs) (w : World) : World :=
  {| ui := ui w; refs := f (refs w); host := host w; calib := calib w;
     listener := listener w |}.

Definition with_host (f : Host → Host) (w : World) : World :=
  {| ui := ui w; refs := refs w; host := f (host w); calib := calib w;
     listener := listener w |}.

Definition with_calib (f : Calib → Calib) (w : World) : World :=
  {| ui := ui w; refs := refs w; host := host w; calib := f (calib w);
     listener := listener w |}.

Definition with_listener (c : Closure) (w : World) : World :=
  {| ui := ui w; refs := refs w; host := host w; calib := calib w;
     listener := c |}.

Definition setGameState (g : GameState) : World → World :=
  with_ui (λ u,
    {| gameState := g; activeLights := activeLights u;
       reactionTime := reactionTime u; results := results u;
       systemLatency := systemLatency u; isCalibrating := isCalibrating u;
       jumpStartFlag := jumpStartFlag u |}).

Definition setActiveLights (n : Z) : World → World :=
  with_ui (λ u,
    {| gameState := gameState u; activeLights := n;
       reactionTime := reactionTime u; results := results u;
       systemLatency := systemLatency u; isCalibrating := isCalibrating u;
       jumpStartFlag := jumpStartFlag u |}).

Definition setReactionTime (t : option Z) : World → World :=
  with_ui (λ u,
    {| gameState := gameState u; activeLights := activeLights u;
       reactionTime := t; results := results u;
       systemLatency := systemLatency u; isCalibrating := isCalibrating u;
       jumpStartFlag := jumpStartFlag u |}).

(** [setResults] is always called with an updater function of the
    previous value. *)
Definition setResults (f : list Result → list Result) : World → World :=
  with_ui (λ u,
    {| gameState := gameState u; activeLights := activeLights u;
       reactionTime := reactionTime u; results := f (results u);
       systemLatency := systemLatency u; isCalibrating := isCalibrating u;
       jumpStartFlag := jumpStartFlag u |}).

Definition setSystemLatency (l : Z) : World → World :=
  with_ui (λ u,
    {| gameState := gameState u; activeLights := activeLights u;
       reactionTime := reactionTime u; results := results u;
       systemLatency := l; isCalibrating := isCalibrating u;
       jumpStartFlag := jumpStartFlag u |}).

Definition setIsCalibrating (b : bool) : World → World :=
  with_ui (λ u,
    {| gameState := gameState u; activeLights := activeLights u;
       reactionTime := reactionTime u; results := results u;
       systemLatency := systemLatency u; isCalibrating := b;
       jumpStartFlag := jumpStartFlag u |}).

Definition setJumpStart (b : bool) : World → World :=
  with_ui (λ u,
    {| gameState := gameState u; activeLights := activeLights u;
       reactionTime := reactionTime u; results := results u;
       systemLatency := systemLatency u; isCalibrating := isCalibrating u;
       jumpStartFlag := b |}).

Definition set_rafRef (h : option nat) : World → World :=
  with_refs (λ r,
    {| rafRef := h; timeoutRef := timeoutRef r;
       lightsStartRef := lightsStartRef r;
       lightsOutTimeRef := lightsOutTimeRef r;
       runningRef := runningRef r; bestRef := bestRef r |}).

Definition set_timeoutRef (h : option nat) : World → World :=
  with_refs (λ r,
    {| rafRef := rafRef r; timeoutRef := h;
       lightsStartRef := lightsStartRef r;
       lightsOutTimeRef := lightsOutTimeRef r;
       runningRef := runningRef r; bestRef := bestRef r |}).

Definition set_lightsStartRef (t : Q) : World → World :=
  with_refs (λ r,
    {| rafRef := rafRef r; timeoutRef := timeoutRef r;
       lightsStartRef := t;
       lightsOutTimeRef := lightsOutTimeRef r;
       runningRef := runningRef r; bestRef := bestRef r |}).

Definition set_lightsOutTimeRef (t : Q) : World → World :=
  with_refs (λ r,
    {| rafRef := rafRef r; timeoutRef := timeoutRef r;
       lightsStartRef := lightsStartRef r;
       lightsOutTimeRef := t;
       runningRef := runningRef r; bestRef := bestRef r |}).

Definition set_runningRef (b : bool) : World → World :=
  with_refs (λ r,
    {| rafRef := rafRef r; timeoutRef := timeoutRef r;
       lightsStartRef := lightsStartRef r;
       lightsOutTimeRef := lightsOutTimeRef r;
       runningRef := b; bestRef := bestRef r |}).

Definition set_bestRef (n : JsNum) : World → World :=
  with_refs (λ r,
    {| rafRef := rafRef r; timeoutRef := timeoutRef r;
       lightsStartRef := lightsStartRef r;
       lightsOutTimeRef := lightsOutTimeRef r;
       runningRef := runningRef r; bestRef := n |}).

(** ** Host primitives *)

(** [localStorage.setItem(k, v)]. *)
Definition setItem (k v : string) : World → World :=
  with_host (λ h,
    {| localStorage := <[k := v]> (localStorage h); timers := timers h;
       rafs := rafs h; nextTimer := nextTimer h; nextRaf := nextRaf h |}).

(** [setTimeout(cb, delay)]: a fresh handle, the callback is pending. *)
Definition setTimeout (cb : TimerCb) (delay : Q) (w : World) : nat * World :=
  let id := nextTimer (host w) in
  (id,
   with_host (λ h,
     {| localStorage := localStorage h;
        timers := timers h ++ [ {| t_id := id; t_delay := delay; t_cb := cb |} ];
        rafs := rafs h; nextTimer := S (nextTimer h); nextRaf := nextRaf h |}) w).

(** [clearTimeout(id)]. *)
Definition clearTimeout (id : nat) : World → World :=
  with_host (λ h,
    {| localStorage := localStorage h;
       timers := filter (λ t, t_id t ≠ id) (timers h);
       rafs := rafs h; nextTimer := nextTimer h; nextRaf := nextRaf h |}).

(** [requestAnimationFrame(frame)], for the [frame] closure that captured
    [captured] as its [activeLights]. *)
Definition requestAnimationFrame (captured : Z) (w : World) : nat * World :=
  let id := nextRaf (host w) in
  (id,
   with_host (λ h,
     {| localStorage := localStorage h; timers := timers h;
        rafs := rafs h ++ [(id, captured)];
        nextTimer := nextTimer h; nextRaf := S (nextRaf h) |}) w).

(** [cancelAnimationFrame(id)]. *)
Definition cancelAnimationFrame (id : nat) : World → World :=
  with_host (λ h,
    {| localStorage := localStorage h; timers := timers h;
       rafs := filter (λ r, r.1 ≠ id) (rafs h);
       nextTimer := nextTimer h; nextRaf := nextRaf h |}).

(** Truthiness of a handle: [null] and [0] are falsy. *)
Definition handle_truthy (h : option nat) : option nat :=
  match h with
  | Some (S n) => Some (S n)
  | _ => None
  end.

(** ** The component's functions *)

(** The closure values of the current render. *)
Definition render (w : World) : Closure :=
  {| c_gameState := gameState (ui w);
     c_activeLights := activeLights (ui w);
     c_systemLatency := systemLatency (ui w) |}.

(** [pushResult]: prepend, keep ten, and update the best time. *)
Definition pushResult (r : Result) (w : World) : World :=
  let w := setResults (λ prev, take 10 (r :: prev)) w in
  if negb (jumpStart r) then
    match time r with
    | Some t =>
        if ltNum t (orInfinity (bestRef (refs w))) then
          let w := set_bestRef (JFin (inject_Z t)) w in
          setItem "best" (String_of t) w
        else w
    | None => w
    end
  else w.

(** The number of lights [frame] computes for the time stamp [now]. *)
Definition toLight (t0 now : Q) : Z :=
  let elapsed := fsub now t0 in
  Z.min 5 (Math_floor (fdiv elapsed 1000) + 1).

(** [frame(now)], the animation-frame callback defined inside
    [startGame]; [captured] is the [activeLights] of the render in which
    [startGame] was created, [rnd] the value [Math.random()] returns. *)
Definition frame (captured : Z) (now rnd : Q) (w : World) : World :=
  let n := toLight (lightsStartRef (refs w)) now in
  let w := if negb (n =? captured) then setActiveLights n w else w in
  if n <? 5 then
    let '(id, w) := requestAnimationFrame captured w in
    set_rafRef (Some id) w
  else
    let w := setGameState waiting w in
    let delay := fadd 1000 (fmul rnd 4000) in
    let '(id, w) := setTimeout LightsOutCb delay w in
    set_timeoutRef (Some id) w.

(** The lights-out callback given to [setTimeout] by [frame]. *)
Definition lightsOut (perf_now : Q) (w : World) : World :=
  let w := set_lightsOutTimeRef perf_now w in
  let w := setActiveLights 0 w in
  setGameState reacting w.

Definition startGame (c : Closure) (perf_now : Q) (w : World) : World :=
  if runningRef (refs w) then w
  else
    let w := set_runningRef true w in
    let w := setReactionTime None w in
    let w := setJumpStart false w in
    let w := set_lightsOutTimeRef 0%Q w in
    let w := setActiveLights 0 w in
    let w := setGameState countdown w in
    let w := set_lightsStartRef perf_now w in
    let '(id, w) := requestAnimationFrame (c_activeLights c) w in
    set_rafRef (Some id) w.

Definition stopRunningClean (w : World) : World :=
  let w := set_runningRef false w in
  let w := match handle_truthy (rafRef (refs w)) with
           | Some id => cancelAnimationFrame id w
           | None => w
           end in
  let w := match handle_truthy (timeoutRef (refs w)) with
           | Some id => clearTimeout id w
           | None => w
           end in
  let w := set_rafRef None w in
  set_timeoutRef None w.

(** The calibrated reaction time computed on the timed path. *)
Definition calibrated (t_out perf_now : Q) (latency : Z) : Z :=
  let raw := fsub perf_now t_out in
  Z.max 0 (Math_round (fsub raw (inject_Z latency))).

(** [handleReaction], as created in the render [c]; [perf_now] is what
    [performance.now()] returns during the call and [iso] what
    [new Date().toISOString()] returns. *)
Definition handleReaction (c : Closure) (perf_now : Q) (iso : string)
    (w : World) : World :=
  if negb (runningRef (refs w))
     && (bool_decide (c_gameState c = idle)
         || bool_decide (c_gameState c = result))
  then startGame c perf_now w
  else if Qeq_bool (lightsOutTimeRef (refs w)) 0 then
    let w := stopRunningClean w in
    let w := setJumpStart true w in
    let w := setGameState result w in
    let w := setActiveLights 0 w in
    pushResult {| time := None; jumpStart := true; timestamp := iso |} w
  else
    let w := stopRunningClean w in
    let t := calibrated (lightsOutTimeRef (refs w)) perf_now
               (c_systemLatency c) in
    let w := setReactionTime (Some t) w in
    let w := setGameState result w in
    pushResult {| time := Some t; jumpStart := false; timestamp := iso |} w.

(** *** Calibration *)

(** [sampleOnce()]: read the clock and schedule the zero-delay callback. *)
Definition sampleOnce (t0 : Q) (w : World) : World :=
  (setTimeout (SampleCb t0) 0%Q w).2.

(** [samples[Math.floor(samples.length / 2)]], read after the in-place
    sort.  The index is inside every non-empty array, so [None]
    ([undefined]) does not arise after a [push] (lemma [median_defined]). *)
Definition median (sorted : list Q) : option Q :=
  sorted !! (length sorted `div` 2)%nat.

(** [Math.max(0, Math.round(median))]. *)
Definition latencyOf (sorted : list Q) : Z :=
  match median sorted with
  | Some m => Z.max 0 (Math_round m)
  | None => 0
  end.

(** The callback of [sampleOnce]: [t0] was captured when it was
    scheduled, [perf_now] is the clock when it runs and [perf_next] the
    clock read by the next [sampleOnce]. *)
Definition sampleCb (t0 perf_now perf_next : Q) (w : World) : World :=
  let w := with_calib (λ c,
             {| samples := samples c ++ [fsub perf_now t0];
                count := S (count c) |}) w in
  if (count (calib w) <? 12)%nat then sampleOnce perf_next w
  else
    let w := with_calib (λ c,
               {| samples := sortNumbers (samples c); count := count c |}) w in
    let w := setSystemLatency (latencyOf (samples (calib w))) w in
    setIsCalibrating false w.

(** ** Mounting and the event loop *)

(** The re-render after a handler: the input effect has the dependencies
    [gameState, systemLatency] and subscribes the handlers of the new
    render when one of them changed. *)
Definition commit (w : World) : World :=
  if bool_decide (c_gameState (listener w) = gameState (ui w))
     && (c_systemLatency (listener w) =? systemLatency (ui w))
  then w
  else with_listener (render w) w.

Definition initialUI : UI :=
  {| gameState := idle; activeLights := 0; reactionTime := None;
     results := []; systemLatency := 0; isCalibrating := true;
     jumpStartFlag := false |}.

Definition initialRefs : Refs :=
  {| rafRef := None; timeoutRef := None; lightsStartRef := 0%Q;
     lightsOutTimeRef := 0%Q; runningRef := false; bestRef := JPosInf |}.

Definition initialWorld (storage : gmap string string) : World :=
  {| ui := initialUI; refs := initialRefs;
     host := {| localStorage := storage; timers := []; rafs := [];
                nextTimer := 1; nextRaf := 1 |};
     calib := {| samples := []; count := 0 |};
     listener := {| c_gameState := idle; c_activeLights := 0;
                    c_systemLatency := 0 |} |}.

Section Mount.

(** [Number(s)], the conversion of a stored string to a number, is a
    primitive of the language; the component only depends on its
    result. *)
Variable Number : string → JsNum.

(** The first effect: read the key ["best"]; a missing key and the
    empty string are falsy. *)
Definition loadBest (w : World) : World :=
  match localStorage (host w) !! "best" with
  | Some stored =>
      if bool_decide (stored = "") then w
      else set_bestRef (Number stored) w
  | None => w
  end.

(** The effects of the first render, in source order; [t0] is the clock
    read by the first [sampleOnce]. *)
Definition mount (storage : gmap string string) (t0 : Q) : World :=
  let w := initialWorld storage in
  let w := loadBest w in
  sampleOnce t0 w.

End Mount.

(** What the host can deliver to the component. *)
Inductive Event : Type :=
  | EvReaction (perf_now : Q) (iso : string)
      (* pointer-down or Space on the window *)
  | EvTryAgain (perf_now : Q)
      (* click on the Try Again button *)
  | EvFrame (id : nat) (now rnd : Q)
      (* the animation-frame callback with handle [id] *)
  | EvTimeout (id : nat) (perf_now perf_next : Q).
      (* the timer callback with handle [id] *)

Definition pendingFrame (id : nat) (w : World) : option Z :=
  snd <$> head (filter (λ r, r.1 = id) (rafs (host w))).

Definition pendingTimer (id : nat) (w : World) : option TimerCb :=
  t_cb <$> head (filter (λ t, t_id t = id) (timers (host w))).

(** The Try Again button exists only in the result panel of the game
    view, which is not rendered while calibrating. *)
Definition tryAgainRendered (w : World) : bool :=
  negb (isCalibrating (ui w)) && bool_decide (gameState (ui w) = result).

(** One turn of the event loop.  A callback that is not pending (it
    already ran, or was cancelled) is never delivered; a delivered
    callback leaves the pending set before it runs. *)
Definition step (w : World) (ev : Event) : World :=
  match ev with
  | EvReaction perf_now iso =>
      commit (handleReaction (listener w) perf_now iso w)
  | EvTryAgain perf_now =>
      if tryAgainRendered w then commit (startGame (render w) perf_now w)
      else w
  | EvFrame id now rnd =>
      match pendingFrame id w with
      | Some captured =>
          commit (frame captured now rnd (cancelAnimationFrame id w))
      | None => w
      end
  | EvTimeout id perf_now perf_next =>
      match pendingTimer id w with
      | Some (SampleCb t0) =>
          commit (sampleCb t0 perf_now perf_next (clearTimeout id w))
      | Some LightsOutCb =>
          commit (lightsOut perf_now (clearTimeout id w))
      | None => w
      end
  end.

Definition run (w : World) (evs : list Event) : World :=
  foldl step w evs.

(** ** The invariant of the event loop *)

(** A round is in progress in these three states. *)
Definition active (g : GameState) : bool :=
  match g with
  | countdown | waiting | reacting => true
  | idle | result => false
  end.

Definition isSample (t : Timer) : Prop :=
  match t_cb t with SampleCb _ => True | LightsOutCb => False end.

#[global] Instance isSample_dec t : Decision (isSample t).
Proof. unfold isSample. destruct (t_cb t); apply _. Defined.

(** What is known of a pending timer: its handle is positive; a sample
    callback is pending only while calibrating; a lights-out callback is
    pending only in [waiting], and [timeoutRef] holds its handle. *)
Definition timer_ok (w : World) (t : Timer) : Prop :=
  t_id t ≠ 0%nat ∧
  match t_cb t with
  | SampleCb _ => isCalibrating (ui w) = true
  | LightsOutCb =>
      gameState (ui w) = waiting ∧ timeoutRef (refs w) = Some (t_id t)
  end.

(** The part of the invariant that holds after a handler, before the
    re-render. *)
Record PreInv (w : World) : Prop := {
  inv_running : runningRef (refs w) = active (gameState (ui w));
  inv_rafs :
    match gameState (ui w) with
    | countdown =>
        ∃ id, rafs (host w) = [(S id, 0)] ∧ rafRef (refs w) = Some (S id)
    | _ => rafs (host w) = []
    end;
  inv_nextRaf : nextRaf (host w) ≠ 0%nat;
  inv_nextTimer : nextTimer (host w) ≠ 0%nat;
  inv_armed :
    match gameState (ui w) with
    | countdown | waiting => lightsOutTimeRef (refs w) = 0%Q
    | _ => True
    end;
  inv_dark :
    match gameState (ui w) with
    | countdown | waiting => True
    | _ => activeLights (ui w) = 0
    end;
  inv_latency : 0 ≤ systemLatency (ui w);
  inv_timers : Forall (timer_ok w) (timers (host w));
  inv_one_sample : (length (filter isSample (timers (host w))) ≤ 1)%nat;
  inv_count :
    length (samples (calib w)) = count (calib w) ∧
    if isCalibrating (ui w) then (count (calib w) < 12)%nat
    else count (calib w) = 12%nat
}.

(** The subscribed handlers were created in a render with the current
    [gameState] and [systemLatency], and outside a round that render
    showed no light. *)
Record Inv (w : World) : Prop := {
  inv_pre : PreInv w;
  inv_listener_state : c_gameState (listener w) = gameState (ui w);
  inv_listener_latency : c_systemLatency (listener w) = systemLatency (ui w);
  inv_listener_lights :
    active (gameState (ui w)) = false → c_activeLights (listener w) = 0
}.

(** The states the component can be in: mounted, then any events. *)
Inductive reachable : World → Prop :=
  | reach_mount Number storage t0 : reachable (mount Number storage t0)
  | reach_step w ev : reachable w → reachable (step w ev).

(** A sequence of [record] operations: the attempts of [rs] are pushed in
    order, oldest first. *)
Definition recordAll (rs : list Result) (w : World) : World :=
  foldl (λ w r, pushResult r w) w rs.

(** The events that are deliveries of scheduled callbacks. *)
Definition isCallback (ev : Event) : Prop :=
  match ev with
  | EvFrame _ _ _ | EvTimeout _ _ _ => True
  | EvReaction _ _ | EvTryAgain _ => False
  end.

(** *** The median of the specification

    The specification's words for the calibration result: the median of
    the sorted samples, which for an even number of samples is their
    lower-middle element, plus a fixed buffer. *)
Definition lowerMedian (l : list Q) : option Q :=
  sortNumbers l !! ((length l - 1) `div` 2)%nat.

(** The deliveries of the calibration callbacks when the successive
    zero-delay round trips take the durations [ds]: the callback with
    handle [id] runs at [clock + d], and the next [sampleOnce] reads the
    same clock. *)
Fixpoint sampleEvents (id : nat) (clock : Q) (ds : list Q) : list Event :=
  match ds with
  | [] => []
  | d :: ds =>
      EvTimeout id (clock + d) (clock + d)
      :: sampleEvents (S id) (clock + d) ds
  end.

(** A calibration run on a fresh page with nothing stored. *)
Definition calibrationRun (ds : list Q) : World :=
  run (mount (λ _, JNaN) ∅ 0%Q) (sampleEvents 1 0%Q ds).

(** *** Example sessions *)

(** A round up to lights-out on a page whose clock shows [start] when
    the round begins: the five lights come on a second apart, and the
    lights go out [wait] ms after the fifth.  [raf] and [timer] are the
    handles the host gives out next. *)
Definition lightsSequence (raf timer : nat) (start wait : Q) : list Event :=
  [ EvReaction start "start";
    EvFrame raf (start + 16) 0;
    EvFrame (raf + 1) (start + 1016) 0;
    EvFrame (raf + 2) (start + 2016) 0;
    EvFrame (raf + 3) (start + 3016) 0;
    EvFrame (raf + 4) (start + 4016) ((wait - 1000) / 4000);
    EvTimeout timer (start + 4016 + wait) (start + 4016 + wait) ]%Q.

(** The same round with the player reacting [reaction] ms after
    lights-out. *)
Definition playRound (raf timer : nat) (start wait reaction : Q)
    (iso : string) : list Event :=
  lightsSequence raf timer start wait
  ++ [ EvReaction (start + 4016 + wait + reaction)%Q iso ].

(** A session: calibration measures 4 ms round trips, then the player
    reacts 3 ms after lights-out in the first round and 154 ms after
    lights-out in the second. *)
Definition sessionZeroBest : list Event :=
  sampleEvents 1 0%Q (replicate 12 4%Q)
  ++ playRound 1 13 1000%Q 2000%Q 3%Q "first".

Definition secondRound : list Event :=
  playRound 6 14 10000%Q 3000%Q 154%Q "second".

(** A calibrated page (8 ms round trips) with the lights just gone out,
    at clock value 7112. *)
Definition armedPage : World :=
  run (mount (λ _, JNaN) ∅ 0%Q)
    (sampleEvents 1 0%Q (replicate 12 8%Q) ++ lightsSequence 1 13 1096%Q 2000%Q).

(** A fresh page in the countdown of its first round, two lights on. *)
Definition countdownPage : World :=
  run (mount (λ _, JNaN) ∅ 0%Q)
    [ EvReaction 10 "start"; EvFrame 1 26 0; EvFrame 2 1026 0 ]%Q.

(** *** The two clocks along a trace

    Handlers read [performance.now()]; an animation-frame callback gets
    the time stamp of its frame, which may lie a little before a reading
    of [performance.now()] taken earlier in the same frame. *)







(** *** A page on which no best time was ever stored

    [forgetBest w] is [w] with the best time unset and the key ["best"]
    absent from the storage. *)
Definition forgetBest (w : World) : World :=
  with_host (λ h,
    {| localStorage := delete "best" (localStorage h); timers := timers h;
       rafs := rafs h; nextTimer := nextTimer h; nextRaf := nextRaf h |})
    (set_bestRef JPosInf w).

(** ** The turns of the event loop

    [Turn w ev w'] lists what one delivery can have been: nothing (the
    callback was not pending, or the button not there), the start of a
    round, the end of a round by a jump start or by a timed reaction, a
    tick of the countdown, a calibration sample, or lights-out. *)
Inductive Turn (w : World) : Event → World → Prop :=
  | turn_ignored ev :
      Turn w ev w
  | turn_start c t ev :
      runningRef (refs w) = false →
      active (gameState (ui w)) = false →
      c_activeLights c = 0 →
      (ev = EvTryAgain t ∨ ∃ iso, ev = EvReaction t iso) →
      Turn w ev (commit (startGame c t w))
  | turn_jump t iso :
      runningRef (refs w) = true →
      Qeq_bool (lightsOutTimeRef (refs w)) 0 = true →
      Turn w (EvReaction t iso)
        (commit
           (pushResult {| time := None; jumpStart := true; timestamp := iso |}
              (setActiveLights 0
                 (setGameState result
                    (setJumpStart true (stopRunningClean w))))))
  | turn_timed t iso :
      gameState (ui w) = reacting →
      runningRef (refs w) = true →
      Qeq_bool (lightsOutTimeRef (refs w)) 0 = false →
      Turn w (EvReaction t iso)
        (commit
           (let e := calibrated (lightsOutTimeRef (refs w)) t
                       (systemLatency (ui w)) in
            pushResult {| time := Some e; jumpStart := false;
                          timestamp := iso |}
              (setGameState result
                 (setReactionTime (Some e) (stopRunningClean w)))))
  | turn_frame id now rnd :
      gameState (ui w) = countdown →
      pendingFrame id w = Some 0 →
      Turn w (EvFrame id now rnd)
        (commit (frame 0 now rnd (cancelAnimationFrame id w)))
  | turn_sample id t0 t t' :
      isCalibrating (ui w) = true →
      pendingTimer id w = Some (SampleCb t0) →
      Turn w (EvTimeout id t t')
        (commit (sampleCb t0 t t' (clearTimeout id w)))
  | turn_lightsOut id t t' :
      gameState (ui w) = waiting →
      pendingTimer id w = Some LightsOutCb →
      Turn w (EvTimeout id t t')
        (commit (lightsOut t (clearTimeout id w))).

(** The transitions of [gameState] that the handlers make. *)
Definition allowed (g g' : GameState) : bool :=
  match g, g' with
  | idle, (idle | countdown) => true
  | countdown, (countdown | waiting | result) => true
  | waiting, (waiting | reacting | result) => true
  | reacting, (reacting | result) => true
  | result, (result | countdown) => true
  | _, _ => false
  end.

(** ** Attempts and what the result panel shows *)

(** An attempt as [handleReaction] builds it: a jump start without a
    time, or a timed attempt with a non-negative time. *)
Definition wfAttempt (r : Result) : Prop :=
  match time r with
  | None => jumpStart r = true
  | Some t => jumpStart r = false ∧ 0 ≤ t
  end.

(** What the panel state ([reactionTime] and the jump-start flag) is in
    each game state: cleared from the start of a round on, and in
    [result] that of the newest attempt. *)
Definition panelAgrees (w : World) : Prop :=
  match gameState (ui w) with
  | idle =>
      results (ui w) = [] ∧
      reactionTime (ui w) = None ∧ jumpStartFlag (ui w) = false
  | countdown | waiting | reacting =>
      reactionTime (ui w) = None ∧ jumpStartFlag (ui w) = false
  | result =>
      ∃ r, head (results (ui w)) = Some r ∧
           jumpStart r = jumpStartFlag (ui w) ∧
           time r = reactionTime (ui w)
  end.

(** ** The lamps and the pending callbacks *)

(** The five lamps of the game view (the view rendered once calibration
    is over): lamp [lightNum] is red when [activeLights >= lightNum]. *)
Definition lampOn (lights lightNum : Z) : bool :=
  bool_decide (lightNum ≤ lights).

Definition lamps (w : World) : list bool :=
  lampOn (activeLights (ui w)) <$> [1; 2; 3; 4; 5].

(** What the states know of the lights: never more than five, and all
    five while waiting. *)
Definition lightsBounded (w : World) : Prop :=
  activeLights (ui w) ≤ 5 ∧
  (gameState (ui w) = waiting → activeLights (ui w) = 5).

(** Handles are given out in increasing order, so the handle kept in
    [timeoutRef] is never that of a calibration timer; there is at most
    one lights-out timer; and while calibrating a sample callback is
    pending. *)
Record TimersInv (w : World) : Prop := {
  ti_ids :
    Forall (λ t, (t_id t < nextTimer (host w))%nat) (timers (host w));
  ti_ref :
    ∀ k, timeoutRef (refs w) = Some k → (k < nextTimer (host w))%nat;
  ti_sample :
    Forall (λ t, isSample t → timeoutRef (refs w) ≠ Some (t_id t))
      (timers (host w));
  ti_one_lo :
    (length (filter (λ t, ¬ isSample t) (timers (host w))) ≤ 1)%nat;
  ti_pending :
    isCalibrating (ui w) = true → ∃ t, t ∈ timers (host w) ∧ isSample t
}.

(** ** What the render derives from the state *)

(** [!r.jumpStart && r.time !== null]. *)
Definition isValid (r : Result) : Prop :=
  jumpStart r = false ∧ time r ≠ None.

#[global] Instance isValid_dec r : Decision (isValid r).
Proof. unfold isValid. apply _. Defined.

(** [validTimes]: the times of the valid attempts of the history; the
    cast [r.time as number] is applied after the filter has removed the
    nulls. *)
Definition validTimes (rs : list Result) : list Z :=
  (λ r, default 0 (time r)) <$> filter isValid rs.

(** [validTimes.reduce((a, b) => a + b, 0)], a sum of doubles. *)
Definition sumTimes (l : list Z) : Q :=
  foldl (λ a b, fadd a (inject_Z b)) 0%Q l.

(** [averageTime]; [None] is [NaN], the value for an empty
    [validTimes]. *)
Definition averageTime (rs : list Result) : option Z :=
  let v := validTimes rs in
  if decide (length v = 0%nat) then None
  else Some (Math_round (fdiv (sumTimes v) (inject_Z (Z.of_nat (length v))))).


Definition hintFocus : string :=
  "Focus on the lights. Try to anticipate the exact moment.".
Definition hintGood : string :=
  "Good! Try to maintain focus for faster reactions.".
Definition hintExcellent : string := "Excellent reaction time!".
Definition hintOutstanding : string :=
  "Outstanding! Professional level reaction time!".

Definition getHint (time : Z) : string :=
  if bool_decide (300 < time) then hintFocus
  else if bool_decide (250 < time) then hintGood
  else if bool_decide (200 < time) then hintExcellent
  else hintOutstanding.

(** What a JSX slot [{a && b && <p>..</p>}] renders: nothing for [null]
    and [false], the number itself for a falsy number, the element
    otherwise. *)
Inductive Slot : Type :=
  | SlotEmpty
  | SlotNumber (n : Z)
  | SlotHint (text : string).

(** The slot [{reactionTime && reactionTime > 250 && (... getHint(reactionTime) ...)}]
    of the result panel. *)
Definition hintSlot (reactionTime : option Z) : Slot :=
  match reactionTime with
  | None => SlotEmpty
  | Some t =>
      if bool_decide (t = 0) then SlotNumber t
      else if bool_decide (250 < t) then SlotHint (getHint t)
      else SlotEmpty
  end.

(** The numbers of the rows of the history,
    [Attempt {results.length - index}]. *)
Definition attemptLabels (rs : list Result) : list Z :=
  imap (λ index _, Z.of_nat (length rs) - Z.of_nat index) rs.

(** Whether the best time of [w] is the one set by a timed attempt of
    [t] ms, persisted under the key ["best"]. *)
Definition bestIs (storage : gmap string string) (t : Z) (w : World) : Prop :=
  0 ≤ t ∧
  bestRef (refs w) = JFin (inject_Z t) ∧
  localStorage (host w) = <["best" := String_of t]> storage.

(** *** More example pages *)

(** The page after the two rounds of [sessionZeroBest] and
    [secondRound]: in [result], with a 150 ms attempt above a 0 ms one. *)
Definition playedPage : World :=
  run (mount (λ _, JNaN) ∅ 0%Q) (sessionZeroBest ++ secondRound).

(** A fresh page whose countdown has just ended: all lights on, waiting
    for lights-out. *)
Definition waitingPage : World :=
  run (mount (λ _, JNaN) ∅ 0%Q)
    [ EvReaction 10 "start"; EvFrame 1 26 0; EvFrame 2 4026 (1 # 2) ]%Q.

Arguments stopRunningClean : simpl never.
Arguments roundDouble : simpl never.
Arguments fsub : simpl never.
Arguments fadd : simpl never.
Arguments fmul : simpl never.
Arguments fdiv : simpl never.

(** * Proofs *)

(** ** Preservation of the invariant *)

Lemma commit_inv (w w' : World) :
  Inv w → PreInv w' → listener w' = listener w → Inv (commit w').
Proof.
  intros HI HP Hl. unfold commit. rewrite Hl.
  destruct (bool_decide _ && _) eqn:E.
  - apply andb_true_iff in E as [E1 E2].
    apply bool_decide_eq_true in E1. apply Z.eqb_eq in E2.
    split; try rewrite Hl; auto.
    intros Ha. apply (inv_listener_lights _ HI).
    rewrite <- (inv_listener_state _ HI), E1. exact Ha.
  - split; simpl; auto.
    + destruct HP. split; auto.
    + intros Ha. pose proof (inv_dark _ HP) as Hd.
      destruct (gameState (ui w')); simpl in *; congruence.
Qed.

Ltac destruct_world w :=
  let u := fresh "u" in let r := fresh "r" in let h := fresh "h" in
  let c := fresh "c" in let l := fresh "l" in
  destruct w as [u r h c l]; destruct u, r, h, c, l.

Lemma timer_ok_not_waiting (w : World) (t : Timer) :
  timer_ok w t → gameState (ui w) ≠ waiting → isSample t.
Proof.
  unfold timer_ok, isSample. intros [_ H] Hg.
  destruct (t_cb t); [exact I | destruct H; contradiction].
Qed.

(** Outside [waiting] every pending timer belongs to the calibration. *)
Lemma timers_retarget (w w' : World) :
  Forall (timer_ok w) (timers (host w)) →
  gameState (ui w) ≠ waiting →
  isCalibrating (ui w') = isCalibrating (ui w) →
  Forall (timer_ok w') (timers (host w)).
Proof.
  intros HF Hg Hc. apply Forall_forall. intros t Ht.
  rewrite Forall_forall in HF. specialize (HF t Ht).
  pose proof (timer_ok_not_waiting _ _ HF Hg) as Hs.
  unfold timer_ok, isSample in *. destruct HF as [Hid HF].
  split; [exact Hid|]. destruct (t_cb t); [congruence | contradiction].
Qed.

Lemma startGame_running (c : Closure) (t : Q) (w : World) :
  runningRef (refs w) = true → startGame c t w = w.
Proof. intros H. unfold startGame. rewrite H. reflexivity. Qed.

Lemma startGame_pre (c : Closure) (t : Q) (w : World) :
  PreInv w → runningRef (refs w) = false → c_activeLights c = 0 →
  PreInv (startGame c t w).
Proof.
  intros HP Hr Hc. unfold startGame. rewrite Hr.
  pose proof (inv_running _ HP) as Hrun. rewrite Hr in Hrun.
  pose proof (inv_rafs _ HP) as Hrafs.
  pose proof (inv_nextRaf _ HP) as Hnr.
  assert (Hg : gameState (ui w) ≠ waiting)
    by (intros E; rewrite E in Hrun; discriminate).
  pose proof (timers_retarget w) as Ht.
  destruct HP. destruct_world w. simpl in *.
  destruct nextRaf0 as [|n]; [contradiction|].
  assert (rafs0 = []) as -> by (destruct gameState0; try discriminate; auto).
  split; simpl; auto.
  eexists. rewrite Hc. split; reflexivity.
Qed.

Section FilterFacts.
Context {A : Type} (P Q : A → Prop) `{!∀ x, Decision (P x)}
  `{!∀ x, Decision (Q x)}.

Lemma Forall_filter_keep (R : A → Prop) (l : list A) :
  Forall R l → Forall R (filter P l).
Proof.
  rewrite !Forall_forall. intros HR x Hx.
  apply list_elem_of_filter in Hx as [_ Hx]. auto.
Qed.

Lemma length_filter_filter (l : list A) :
  (length (filter Q (filter P l)) ≤ length (filter Q l))%nat.
Proof.
  induction l as [|x l IH]; [reflexivity|].
  rewrite (filter_cons P), (filter_cons Q).
  destruct (decide (P x)), (decide (Q x)); simpl;
    rewrite ?filter_cons; repeat case_decide; simpl; try contradiction; lia.
Qed.

(** When at most one element satisfies [Q], removing everything that
    fails [P] together with one [Q]-element that fails [P] leaves no
    [Q]-element. *)
Lemma filter_filter_none (l : list A) (x : A) :
  (length (filter Q l) ≤ 1)%nat → x ∈ l → Q x → ¬ P x →
  filter Q (filter P l) = [].
Proof.
  induction l as [|y l IH]; intros Hlen Hx HQ HP.
  - reflexivity.
  - rewrite (filter_cons Q) in Hlen. rewrite (filter_cons P).
    apply elem_of_cons in Hx as [-> | Hx].
    + rewrite decide_True in Hlen by assumption.
      rewrite decide_False by assumption. simpl in Hlen.
      pose proof (length_filter_filter l) as Hle.
      destruct (filter Q (filter P l)); [reflexivity|].
      simpl in Hle. lia.
    + destruct (decide (Q y)) as [Hy|Hy].
      * simpl in Hlen. assert (length (filter Q l) = 0%nat) as Hz by lia.
        apply length_zero_iff_nil in Hz.
        exfalso. eapply filter_nil_not_elem_of; eauto.
      * specialize (IH Hlen Hx HQ HP).
        destruct (decide (P y)); [|exact IH].
        rewrite filter_cons, decide_False by assumption. exact IH.
Qed.
End FilterFacts.

Lemma pending_Some {A B : Type} (P : A → Prop) `{!∀ x, Decision (P x)}
    (f : A → B) (l : list A) (b : B) :
  f <$> head (filter P l) = Some b → ∃ x, x ∈ l ∧ P x ∧ f x = b.
Proof.
  intros Hb. destruct (head (filter P l)) as [x|] eqn:E; [|discriminate].
  injection Hb as <-. apply head_Some_elem_of in E.
  apply list_elem_of_filter in E as [HP Hx]. eauto.
Qed.

(** [PreInv] reads neither [results], [reactionTime], the jump-start
    flag, [lightsStartRef], [bestRef] nor the storage. *)
Lemma PreInv_frame (w w' : World) :
  PreInv w →
  gameState (ui w') = gameState (ui w) →
  activeLights (ui w') = activeLights (ui w) →
  systemLatency (ui w') = systemLatency (ui w) →
  isCalibrating (ui w') = isCalibrating (ui w) →
  rafRef (refs w') = rafRef (refs w) →
  timeoutRef (refs w') = timeoutRef (refs w) →
  lightsOutTimeRef (refs w') = lightsOutTimeRef (refs w) →
  runningRef (refs w') = runningRef (refs w) →
  timers (host w') = timers (host w) →
  rafs (host w') = rafs (host w) →
  nextTimer (host w') = nextTimer (host w) →
  nextRaf (host w') = nextRaf (host w) →
  calib w' = calib w →
  PreInv w'.
Proof.
  intros [] Hg Hal Hlat Hcal Hraf Htmo Hlo Hrun Htm Hrf Hnt Hnr Hc.
  split; unfold timer_ok in *;
    rewrite ?Hg, ?Hal, ?Hlat, ?Hcal, ?Hraf, ?Htmo, ?Hlo, ?Hrun, ?Htm, ?Hrf,
      ?Hnt, ?Hnr, ?Hc; assumption.
Qed.

Lemma pushResult_pre (r : Result) (w : World) :
  PreInv w → PreInv (pushResult r w).
Proof.
  intros HP. unfold pushResult.
  destruct (negb (jumpStart r)); [destruct (time r) as [t|]|];
    [destruct (ltNum t _)| |];
    (eapply PreInv_frame; [exact HP | reflexivity ..]).
Qed.

Lemma pushResult_listener (r : Result) (w : World) :
  listener (pushResult r w) = listener w.
Proof.
  unfold pushResult.
  destruct (negb (jumpStart r)); [destruct (time r) as [t|]|];
    [destruct (ltNum t _)| |]; reflexivity.
Qed.

Lemma stop_rafs (w : World) :
  PreInv w → rafs (host (stopRunningClean w)) = [].
Proof.
  intros HP. pose proof (inv_rafs _ HP) as Hr.
  destruct_world w. simpl in *. unfold stopRunningClean. simpl.
  assert (Hnil : ∀ id, filter (λ r : nat * Z, r.1 ≠ id) [] = []) by done.
  destruct gameState0;
    try (subst rafs0;
         destruct rafRef0 as [[|?]|], timeoutRef0 as [[|?]|]; reflexivity).
  destruct Hr as [id [-> ->]]. simpl.
  destruct timeoutRef0 as [[|?]|]; simpl;
    rewrite filter_cons, decide_False by (simpl; intros E; apply E; reflexivity);
    reflexivity.
Qed.

Lemma stop_timers (w : World) :
  PreInv w →
  Forall isSample (timers (host (stopRunningClean w))) ∧
  Forall (timer_ok w) (timers (host (stopRunningClean w))) ∧
  (length (filter isSample (timers (host (stopRunningClean w)))) ≤ 1)%nat.
Proof.
  intros HP. pose proof (inv_timers _ HP) as Ht.
  pose proof (inv_one_sample _ HP) as H1.
  assert (Hlo : ∀ t, timer_ok w t → ¬ isSample t →
                 timeoutRef (refs w) = Some (t_id t) ∧ t_id t ≠ 0%nat).
  { unfold timer_ok, isSample. intros t [Hid Hcb] Hs.
    destruct (t_cb t); [tauto | split; tauto]. }
  destruct_world w. simpl in *. unfold stopRunningClean. simpl.
  assert (Hkeep :
    timeoutRef0 = None ∨ timeoutRef0 = Some 0%nat → Forall isSample timers0).
  { intros Hn. apply Forall_forall. intros t Hin.
    rewrite Forall_forall in Ht. specialize (Ht _ Hin).
    destruct (decide (isSample t)) as [|Hs]; [assumption|].
    destruct (Hlo _ Ht Hs) as [E Hid]. destruct Hn; congruence. }
  destruct timeoutRef0 as [[|id]|];
    destruct rafRef0 as [[|?]|]; simpl;
    try (split; [apply Hkeep; auto | split; assumption]).
  all: split; [|split; [apply Forall_filter_keep; assumption|]].
  all: try (etransitivity; [apply length_filter_filter | assumption]).
  all: apply Forall_forall; intros t Hin;
    apply list_elem_of_filter in Hin as [Hne Hin];
    rewrite Forall_forall in Ht; specialize (Ht _ Hin);
    destruct (decide (isSample t)) as [|Hs]; [assumption|];
    destruct (Hlo _ Ht Hs) as [E Hid]; congruence.
Qed.

Lemma stop_fields (w : World) :
  ui (stopRunningClean w) = ui w ∧
  calib (stopRunningClean w) = calib w ∧
  listener (stopRunningClean w) = listener w ∧
  refs (stopRunningClean w) =
    {| rafRef := None; timeoutRef := None;
       lightsStartRef := lightsStartRef (refs w);
       lightsOutTimeRef := lightsOutTimeRef (refs w);
       runningRef := false; bestRef := bestRef (refs w) |} ∧
  localStorage (host (stopRunningClean w)) = localStorage (host w) ∧
  nextTimer (host (stopRunningClean w)) = nextTimer (host w) ∧
  nextRaf (host (stopRunningClean w)) = nextRaf (host w).
Proof.
  destruct_world w. unfold stopRunningClean. simpl.
  destruct rafRef0 as [[|?]|], timeoutRef0 as [[|?]|]; simpl; done.
Qed.

(** Any state that differs from [stopRunningClean w] only in what a
    finished round writes satisfies the invariant again. *)
Lemma end_round_pre (w w' : World) :
  PreInv w →
  gameState (ui w') = result →
  activeLights (ui w') = 0 →
  systemLatency (ui w') = systemLatency (ui w) →
  isCalibrating (ui w') = isCalibrating (ui w) →
  refs w' = refs (stopRunningClean w) →
  timers (host w') = timers (host (stopRunningClean w)) →
  rafs (host w') = rafs (host (stopRunningClean w)) →
  nextTimer (host w') = nextTimer (host w) →
  nextRaf (host w') = nextRaf (host w) →
  calib w' = calib w →
  PreInv w'.
Proof.
  intros HP Hg Hal Hlat Hcal Hrefs Htm Hrf Hnt Hnr Hc.
  destruct (stop_fields w) as (_ & _ & _ & Hr & _ & _ & _).
  destruct (stop_timers w HP) as (Hs & Hok & H1).
  pose proof (stop_rafs w HP) as Hnil.
  rewrite Hr in Hrefs. destruct HP.
  split; rewrite ?Hg, ?Hal, ?Hlat, ?Hcal, ?Hrefs, ?Htm, ?Hrf, ?Hnt, ?Hnr, ?Hc;
    simpl; auto.
  rewrite Forall_forall in *. intros t Hin.
  specialize (Hs _ Hin). specialize (Hok _ Hin).
  unfold timer_ok, isSample in *. destruct Hok as [Hid Hcb].
  split; [exact Hid|]. destruct (t_cb t); [congruence | contradiction].
Qed.

Lemma handleReaction_listener (c : Closure) (t : Q) (iso : string) (w : World) :
  listener (handleReaction c t iso w) = listener w.
Proof.
  unfold handleReaction.
  destruct (stop_fields w) as (_ & _ & Hl & _).
  destruct (negb _ && _).
  - unfold startGame. destruct (runningRef (refs w)); reflexivity.
  - destruct (Qeq_bool _ _); rewrite pushResult_listener; exact Hl.
Qed.

Lemma handleReaction_pre (t : Q) (iso : string) (w : World) :
  Inv w → PreInv (handleReaction (listener w) t iso w).
Proof.
  intros [HP Hlg Hll Hla]. unfold handleReaction.
  pose proof (inv_running _ HP) as Hrun.
  destruct (stop_fields w) as (Hu & Hc & _ & Hr & _ & Hnt & Hnr).
  destruct (runningRef (refs w)) eqn:Er; cbn [negb andb].
  - (* a round is in progress: it ends *)
    destruct (Qeq_bool (lightsOutTimeRef (refs w)) 0) eqn:Elo;
      apply pushResult_pre; eapply end_round_pre; try exact HP;
      cbn; rewrite ?Hu, ?Hc, ?Hnt, ?Hnr; try reflexivity.
    pose proof (inv_armed _ HP) as Ha. pose proof (inv_dark _ HP) as Hd.
    destruct (gameState (ui w)); try discriminate; auto;
      rewrite Ha in Elo; discriminate.
  - (* no round: the signal starts one *)
    rewrite Hlg.
    destruct (gameState (ui w)) eqn:Eg; try discriminate; cbn;
      apply startGame_pre; auto; apply Hla; rewrite Eg; reflexivity.
Qed.

Lemma pendingFrame_inv (id : nat) (captured : Z) (w : World) :
  PreInv w → pendingFrame id w = Some captured →
  gameState (ui w) = countdown ∧ captured = 0 ∧
  rafs (host w) = [(id, 0)] ∧ rafRef (refs w) = Some id ∧
  rafs (host (cancelAnimationFrame id w)) = [].
Proof.
  intros HP Hp. pose proof (inv_rafs _ HP) as Hr.
  unfold pendingFrame in Hp. simpl.
  destruct (gameState (ui w));
    try (rewrite Hr in Hp; discriminate).
  destruct Hr as [id0 [Hr Href]]. rewrite Hr in *.
  rewrite filter_cons in *. simpl in *.
  destruct (decide (S id0 = id)) as [<-|Hne]; [|discriminate].
  injection Hp as <-. rewrite decide_False by (intros E; apply E; reflexivity).
  auto.
Qed.

Lemma frame_listener (captured : Z) (now rnd : Q) (w : World) :
  listener (frame captured now rnd w) = listener w.
Proof.
  unfold frame. destruct (negb _), (_ <? 5); reflexivity.
Qed.

Lemma frame_pre (id : nat) (captured : Z) (now rnd : Q) (w : World) :
  PreInv w → pendingFrame id w = Some captured →
  PreInv (frame captured now rnd (cancelAnimationFrame id w)).
Proof.
  intros HP Hp.
  destruct (pendingFrame_inv _ _ _ HP Hp) as (Hg & -> & _ & _ & Hnil).
  assert (Hw : gameState (ui w) ≠ waiting) by (rewrite Hg; discriminate).
  pose proof (timers_retarget w) as Hre.
  destruct HP as [Hrun _ Hnr Hnt Harm _ Hlat Htm H1 Hcnt].
  rewrite Hg in Hrun, Harm.
  set (w1 := cancelAnimationFrame id w) in *.
  change (ui w) with (ui w1) in *. change (refs w) with (refs w1) in *.
  change (calib w) with (calib w1) in *.
  change (timers (host w)) with (timers (host w1)) in *.
  change (nextRaf (host w)) with (nextRaf (host w1)) in *.
  change (nextTimer (host w)) with (nextTimer (host w1)) in *.
  assert (Htm1 : ∀ w', gameState (ui w') = countdown ∨ gameState (ui w') = waiting →
                   isCalibrating (ui w') = isCalibrating (ui w1) →
                   Forall (timer_ok w') (timers (host w1))).
  { intros w' Hg' Hc'. rewrite Forall_forall in *. intros t Hin.
    specialize (Htm _ Hin). unfold timer_ok in *.
    change (ui w) with (ui w1) in Htm.
    destruct Htm as [Hid Hcb]. split; [exact Hid|].
    destruct (t_cb t); [congruence | destruct Hcb; congruence]. }
  clear Htm Hre Hp. clearbody w1. clear w.
  unfold frame. destruct_world w1. simpl in *. subst.
  destruct nextRaf0 as [|nr]; [contradiction|].
  destruct nextTimer0 as [|nt]; [contradiction|].
  destruct (negb _), (_ <? 5); simpl; split; simpl; eauto.
  all: try (apply Htm1; simpl; auto).
  all: try (rewrite filter_app, length_app; simpl; lia).
  all: apply Forall_app; split;
    [ apply Htm1; simpl; auto
    | apply Forall_singleton; split; simpl; auto ].
Qed.

Lemma pendingTimer_inv (id : nat) (cb : TimerCb) (w : World) :
  pendingTimer id w = Some cb →
  ∃ t, t ∈ timers (host w) ∧ t_id t = id ∧ t_cb t = cb.
Proof. apply pending_Some. Qed.

Lemma clearTimeout_timers (id : nat) (w : World) :
  timers (host (clearTimeout id w)) =
  filter (λ t, t_id t ≠ id) (timers (host w)).
Proof. reflexivity. Qed.

Lemma lightsOut_pre (id : nat) (perf_now : Q) (w : World) :
  PreInv w → pendingTimer id w = Some LightsOutCb →
  PreInv (lightsOut perf_now (clearTimeout id w)).
Proof.
  intros HP Hp. apply pendingTimer_inv in Hp as (t & Hin & Hid & Hcb).
  pose proof (inv_timers _ HP) as Ht.
  pose proof (proj1 (Forall_forall _ _) Ht _ Hin) as Hok.
  unfold timer_ok in Hok. rewrite Hcb, Hid in Hok.
  destruct Hok as (_ & Hg & Href).
  pose proof (inv_rafs _ HP) as Hr. rewrite Hg in Hr.
  pose proof (inv_one_sample _ HP) as H1.
  destruct HP. destruct_world w. simpl in *. subst gameState0.
  split; simpl; auto.
  - rewrite Forall_forall in *. intros t' Hin'.
    apply list_elem_of_filter in Hin' as [Hne Hin'].
    specialize (Ht _ Hin'). unfold timer_ok in *. simpl in *.
    destruct Ht as [Hid' Hcb']. split; [exact Hid'|].
    destruct (t_cb t'); [assumption|].
    destruct Hcb' as [_ E]. congruence.
  - etransitivity; [apply length_filter_filter | assumption].
Qed.

Lemma length_sortNumbers (l : list Q) : length (sortNumbers l) = length l.
Proof. apply Permutation_length, merge_sort_Permutation. Qed.

Lemma latencyOf_nonneg (l : list Q) : 0 ≤ latencyOf l.
Proof. unfold latencyOf. destruct (median l); lia. Qed.

Lemma sampleCb_listener (t0 perf_now perf_next : Q) (w : World) :
  listener (sampleCb t0 perf_now perf_next w) = listener w.
Proof. unfold sampleCb. destruct (_ <? 12)%nat; reflexivity. Qed.

Lemma sampleCb_pre (id : nat) (t0 perf_now perf_next : Q) (w : World) :
  PreInv w → pendingTimer id w = Some (SampleCb t0) →
  PreInv (sampleCb t0 perf_now perf_next (clearTimeout id w)).
Proof.
  intros HP Hp. apply pendingTimer_inv in Hp as (t & Hin & Hid & Hcb).
  destruct HP as [Hrun Hrafs Hnr Hnt Harm Hdark Hlat Htm H1 [Hlen Hcnt]].
  pose proof (proj1 (Forall_forall _ _) Htm _ Hin) as Hok.
  unfold timer_ok in Hok. rewrite Hcb in Hok. destruct Hok as [_ Hcal].
  rewrite Hcal in Hcnt.
  assert (Hnone : filter isSample (timers (host (clearTimeout id w))) = []).
  { rewrite clearTimeout_timers.
    apply (filter_filter_none _ _ _ t); auto.
    unfold isSample. rewrite Hcb. exact I. }
  assert (Hkeep : Forall (timer_ok w) (timers (host (clearTimeout id w)))).
  { rewrite clearTimeout_timers. apply Forall_filter_keep. exact Htm. }
  set (w1 := clearTimeout id w) in *.
  change (ui w) with (ui w1) in *. change (refs w) with (refs w1) in *.
  change (calib w) with (calib w1) in *.
  change (rafs (host w)) with (rafs (host w1)) in *.
  change (nextRaf (host w)) with (nextRaf (host w1)) in *.
  change (nextTimer (host w)) with (nextTimer (host w1)) in *.
  assert (Htm1 : ∀ w', gameState (ui w') = gameState (ui w1) →
                   timeoutRef (refs w') = timeoutRef (refs w1) →
                   Forall (λ t, isSample t → isCalibrating (ui w') = true)
                     (timers (host w1)) →
                   Forall (timer_ok w') (timers (host w1))).
  { intros w' Hg' Hr' Hs. rewrite Forall_forall in *. intros t' Hin'.
    specialize (Hkeep _ Hin'). specialize (Hs _ Hin').
    unfold timer_ok, isSample in *. change (ui w) with (ui w1) in Hkeep.
    change (refs w) with (refs w1) in Hkeep.
    destruct Hkeep as [Hid' Hcb']. split; [exact Hid'|].
    destruct (t_cb t'); [auto | congruence]. }
  assert (Hno : Forall (λ t, isSample t → False) (timers (host w1))).
  { apply Forall_forall. intros t' Hin' Hs.
    eapply filter_nil_not_elem_of; eauto. }
  clear Htm Hkeep Hin Hid Hcb H1 t. clearbody w1. clear w.
  unfold sampleCb, sampleOnce. destruct_world w1. simpl in *. subst.
  destruct nextTimer0 as [|nt]; [contradiction|].
  destruct (_ <? 12)%nat eqn:E; simpl; split; simpl; auto.
  - apply Forall_app; split.
    + apply Htm1; auto. simpl. apply Forall_forall. auto.
    + apply Forall_singleton. split; simpl; auto.
  - rewrite filter_app, length_app, Hnone. simpl. lia.
  - rewrite length_app. simpl. apply Nat.ltb_lt in E. split; lia.
  - apply latencyOf_nonneg.
  - apply Htm1; auto. simpl.
    eapply Forall_impl; [exact Hno|]. simpl. tauto.
  - rewrite Hnone. simpl. lia.
  - rewrite length_sortNumbers, length_app. simpl.
    apply Nat.ltb_ge in E. split; lia.
Qed.

Lemma startGame_listener (c : Closure) (t : Q) (w : World) :
  listener (startGame c t w) = listener w.
Proof. unfold startGame. destruct (runningRef (refs w)); reflexivity. Qed.

Theorem step_inv (w : World) (ev : Event) : Inv w → Inv (step w ev).
Proof.
  intros HI. pose proof (inv_pre _ HI) as HP.
  destruct ev as [t iso | t | id now rnd | id t t']; simpl.
  - apply (commit_inv w); auto using handleReaction_pre, handleReaction_listener.
  - destruct (tryAgainRendered w) eqn:E; [|exact HI].
    apply andb_true_iff in E as [_ E]. apply bool_decide_eq_true in E.
    apply (commit_inv w); auto using startGame_listener.
    pose proof (inv_running _ HP) as Hr. pose proof (inv_dark _ HP) as Hd.
    rewrite E in Hr, Hd. apply startGame_pre; auto.
  - destruct (pendingFrame id w) as [captured|] eqn:E; [|exact HI].
    apply (commit_inv w); auto using frame_pre.
    rewrite frame_listener. reflexivity.
  - destruct (pendingTimer id w) as [[t0|]|] eqn:E; [| |exact HI].
    + apply (commit_inv w); auto using sampleCb_pre.
      rewrite sampleCb_listener. reflexivity.
    + apply (commit_inv w); auto using lightsOut_pre.
Qed.

Theorem mount_inv (Number : string → JsNum) (storage : gmap string string)
    (t0 : Q) : Inv (mount Number storage t0).
Proof.
  unfold mount, loadBest. simpl.
  destruct (storage !! "best") as [s|]; [destruct (bool_decide (s = ""))|];
    repeat split; simpl; auto; try lia;
    apply Forall_singleton; split; simpl; auto.
Qed.

Theorem reachable_inv (w : World) : reachable w → Inv w.
Proof. induction 1; auto using mount_inv, step_inv. Qed.

Lemma reachable_run (w : World) (evs : list Event) :
  reachable w → reachable (run w evs).
Proof.
  revert w. induction evs as [|ev evs IH]; intros w Hw; simpl; auto.
  apply IH. constructor. exact Hw.
Qed.

(** ** What the handlers leave alone *)

Lemma commit_ui (w : World) : ui (commit w) = ui w.
Proof. unfold commit. destruct (_ && _); reflexivity. Qed.

Lemma commit_refs (w : World) : refs (commit w) = refs w.
Proof. unfold commit. destruct (_ && _); reflexivity. Qed.

Lemma commit_host (w : World) : host (commit w) = host w.
Proof. unfold commit. destruct (_ && _); reflexivity. Qed.

Lemma commit_calib (w : World) : calib (commit w) = calib w.
Proof. unfold commit. destruct (_ && _); reflexivity. Qed.

Lemma pushResult_results (r : Result) (w : World) :
  results (ui (pushResult r w)) = take 10 (r :: results (ui w)).
Proof.
  unfold pushResult.
  destruct (negb (jumpStart r)); [destruct (time r) as [t|]|];
    [destruct (ltNum t _)| |]; reflexivity.
Qed.

Lemma pushResult_ui (r : Result) (w : World) :
  ui (pushResult r w) = ui (setResults (λ prev, take 10 (r :: prev)) w).
Proof.
  unfold pushResult.
  destruct (negb (jumpStart r)); [destruct (time r) as [t|]|];
    [destruct (ltNum t _)| |]; reflexivity.
Qed.

(** ** Rounding to the nearest double *)

Lemma roundEven_bounds (x : Q) : Qfloor x ≤ roundEven x ≤ Qfloor x + 1.
Proof.
  unfold roundEven. destruct (_ ?= _)%Q; [destruct (Z.even _)| |]; lia.
Qed.

Lemma roundEven_mono (x y : Q) : (x <= y)%Q → roundEven x ≤ roundEven y.
Proof.
  intros H. pose proof (Qfloor_resp_le _ _ H) as Hf.
  pose proof (roundEven_bounds x) as Bx. pose proof (roundEven_bounds y) as By.
  destruct (Z.eq_dec (Qfloor x) (Qfloor y)) as [E | NE]; [|lia].
  clear Bx By Hf. unfold roundEven. rewrite E.
  destruct (Qcompare_spec (x - inject_Z (Qfloor y)) (1 # 2)) as [Cx | Cx | Cx];
    destruct (Qcompare_spec (y - inject_Z (Qfloor y)) (1 # 2)) as [Cy | Cy | Cy];
    try destruct (Z.even (Qfloor y)); try lia; exfalso; lra.
Qed.

(** An integer is its own nearest integer. *)
Lemma roundEven_Z (n : Z) : roundEven (inject_Z n) = n.
Proof.
  unfold roundEven. rewrite Qfloor_Z.
  destruct (Qcompare_spec (inject_Z n - inject_Z n) (1 # 2)) as [C | C | C];
    [exfalso; lra | reflexivity | exfalso; lra].
Qed.

Lemma pow2_pos (e : Z) : (0 < 2 ^ e)%Q.
Proof. apply Qpower_0_lt. reflexivity. Qed.

Lemma pow2_add (a b : Z) : (2 ^ (a + b) == 2 ^ a * 2 ^ b)%Q.
Proof. apply Qpower_plus. discriminate. Qed.

Lemma pow2_le (a b : Z) : a ≤ b → (2 ^ a <= 2 ^ b)%Q.
Proof. intros H. apply Qpower_le_compat_l; [exact H | discriminate]. Qed.

Lemma pow2_Z (n : Z) : 0 ≤ n → (inject_Z (2 ^ n) == 2 ^ n)%Q.
Proof. intros H. apply (Zpower_Qpower 2 n H). Qed.

(** [ilog2 x] is the binary exponent of [x]. *)
Lemma ilog2_spec (x : Q) :
  (0 < x)%Q → (2 ^ ilog2 x <= x)%Q ∧ (x < 2 ^ (ilog2 x + 1))%Q.
Proof.
  intros Hx. destruct x as [n d].
  assert (Hn : 0 < n) by (revert Hx; unfold Qlt; simpl; lia).
  unfold ilog2. cbn [Qnum Qden].
  set (ln := Z.log2 n). set (ld := Z.log2 (Z.pos d)).
  pose proof (Z.log2_nonneg n) as Hln0.
  pose proof (Z.log2_nonneg (Z.pos d)) as Hld0.
  fold ln in Hln0. fold ld in Hld0.
  destruct (Z.log2_spec n Hn) as [HnL HnU]. fold ln in HnL, HnU.
  destruct (Z.log2_spec (Z.pos d) eq_refl) as [HdL HdU]. fold ld in HdL, HdU.
  rewrite Zle_Qle, pow2_Z in HnL by lia.
  rewrite Zlt_Qlt, pow2_Z in HnU by lia.
  rewrite Zle_Qle, pow2_Z in HdL by lia.
  rewrite Zlt_Qlt, pow2_Z in HdU by lia.
  set (N := inject_Z n) in *. set (D := inject_Z (Z.pos d)) in *.
  assert (HD : (0 < D)%Q) by reflexivity.
  assert (HxD : ((n # d) * D == N)%Q).
  { rewrite (Qmake_Qdiv n d). fold N D. field.
    intros E. rewrite E in HD. discriminate. }
  set (x := (n # d)%Q) in *. set (k := ln - ld).
  assert (HU : (x < 2 ^ (k + 1))%Q).
  { apply Qnot_le_lt. intros Hc.
    assert (H1 : (2 ^ (k + 1) * 2 ^ ld <= x * D)%Q).
    { apply Qle_trans with (2 ^ (k + 1) * D)%Q.
      - apply Qmult_le_l; [apply pow2_pos | exact HdL].
      - apply Qmult_le_compat_r; [exact Hc | apply Qlt_le_weak, HD]. }
    rewrite <- pow2_add, HxD in H1.
    replace (k + 1 + ld) with (Z.succ ln) in H1 by (unfold k; lia).
    apply (Qlt_irrefl N).
    apply Qlt_le_trans with (2 ^ Z.succ ln)%Q; assumption. }
  assert (HL : (2 ^ (k - 1) < x)%Q).
  { apply Qnot_le_lt. intros Hc.
    assert (H1 : (x * D < 2 ^ (k - 1) * 2 ^ Z.succ ld)%Q).
    { apply Qle_lt_trans with (2 ^ (k - 1) * D)%Q.
      - apply Qmult_le_compat_r; [exact Hc | apply Qlt_le_weak, HD].
      - apply Qmult_lt_l; [apply pow2_pos | exact HdU]. }
    rewrite <- pow2_add, HxD in H1.
    replace (k - 1 + Z.succ ld) with ln in H1 by (unfold k; lia).
    apply (Qlt_irrefl N). apply Qlt_le_trans with (2 ^ ln)%Q; assumption. }
  destruct (Qle_bool (2 ^ k) x) eqn:E.
  - apply Qle_bool_iff in E. split; assumption.
  - split; [apply Qlt_le_weak, HL|].
    replace (k - 1 + 1) with k by lia.
    apply Qnot_le_lt. intros Hc. apply Qle_bool_iff in Hc. congruence.
Qed.

Lemma ilog2_mono (x y : Q) : (0 < x)%Q → (x <= y)%Q → ilog2 x ≤ ilog2 y.
Proof.
  intros Hx Hxy.
  assert (Hy : (0 < y)%Q) by lra.
  destruct (ilog2_spec x Hx) as [Lx _]. destruct (ilog2_spec y Hy) as [_ Uy].
  destruct (Z_le_gt_dec (ilog2 x) (ilog2 y)) as [H | H]; [exact H|].
  exfalso. pose proof (pow2_le (ilog2 y + 1) (ilog2 x) ltac:(lia)). lra.
Qed.

Lemma roundPos_nonneg (x : Q) : (0 < x)%Q → (0 <= roundPos x)%Q.
Proof.
  intros Hx. unfold roundPos.
  apply Qmult_le_0_compat; [|apply Qlt_le_weak, pow2_pos].
  change 0%Q with (inject_Z 0). rewrite <- Zle_Qle.
  pose proof (roundEven_bounds (x / 2 ^ ulpExp x)) as [B _].
  assert (0 ≤ Qfloor (x / 2 ^ ulpExp x)); [|lia].
  change 0 with (Qfloor 0). apply Qfloor_resp_le.
  apply Qle_shift_div_l; [apply pow2_pos | lra].
Qed.

(** Between two positive numbers with the same last place the
    significands are ordered; otherwise a power of two lies between the
    two results. *)
Lemma roundPos_mono (x y : Q) :
  (0 < x)%Q → (x <= y)%Q → (roundPos x <= roundPos y)%Q.
Proof.
  intros Hx Hxy. assert (Hy : (0 < y)%Q) by lra.
  pose proof (ilog2_mono x y Hx Hxy) as Hl.
  destruct (ilog2_spec x Hx) as [_ Ux]. destruct (ilog2_spec y Hy) as [Ly _].
  unfold roundPos.
  destruct (Z.eq_dec (ulpExp x) (ulpExp y)) as [E | NE].
  - rewrite E. apply Qmult_le_compat_r; [|apply Qlt_le_weak, pow2_pos].
    rewrite <- Zle_Qle. apply roundEven_mono.
    apply Qmult_le_compat_r; [exact Hxy|].
    apply Qlt_le_weak, Qinv_lt_0_compat, pow2_pos.
  - assert (Hlt : ulpExp x < ulpExp y) by (unfold ulpExp in *; lia).
    assert (Ey : ulpExp y = ilog2 y - 52) by (unfold ulpExp in *; lia).
    assert (Ex : ilog2 x + 1 ≤ ulpExp x + 53) by (unfold ulpExp; lia).
    apply Qle_trans with (2 ^ (53 + ulpExp x))%Q.
    + rewrite pow2_add. apply Qmult_le_compat_r; [|apply Qlt_le_weak, pow2_pos].
      rewrite <- (pow2_Z 53) by lia. rewrite <- Zle_Qle.
      rewrite <- (roundEven_Z (2 ^ 53)). apply roundEven_mono.
      apply Qle_shift_div_r; [apply pow2_pos|].
      rewrite (pow2_Z 53) by lia. rewrite <- pow2_add.
      apply Qlt_le_weak, Qlt_le_trans with (2 ^ (ilog2 x + 1))%Q; [exact Ux|].
      apply pow2_le. lia.
    + apply Qle_trans with (2 ^ (52 + ulpExp y))%Q; [apply pow2_le; lia|].
      rewrite pow2_add. apply Qmult_le_compat_r; [|apply Qlt_le_weak, pow2_pos].
      rewrite <- (pow2_Z 52) by lia. rewrite <- Zle_Qle.
      rewrite <- (roundEven_Z (2 ^ 52)) at 1. apply roundEven_mono.
      apply Qle_shift_div_l; [apply pow2_pos|].
      rewrite (pow2_Z 52) by lia. rewrite <- pow2_add.
      replace (52 + ulpExp y) with (ilog2 y) by lia. exact Ly.
Qed.

(** Rounding to the nearest double keeps the order. *)
Lemma roundDouble_mono (x y : Q) :
  (x <= y)%Q → (roundDouble x <= roundDouble y)%Q.
Proof.
  intros H. unfold roundDouble.
  destruct x as [[|nx|nx] dx], y as [[|ny|ny] dy]; cbn [Qnum];
    try (exfalso; revert H; unfold Qle; simpl; lia).
  - apply Qle_refl.
  - apply roundPos_nonneg. reflexivity.
  - apply roundPos_mono; [reflexivity | exact H].
  - pose proof (roundPos_nonneg (- (Z.neg nx # dx)) eq_refl). lra.
  - pose proof (roundPos_nonneg (- (Z.neg nx # dx)) eq_refl).
    pose proof (roundPos_nonneg (Z.pos ny # dy) eq_refl). lra.
  - apply Qopp_le_compat. apply roundPos_mono; [reflexivity|].
    apply Qopp_le_compat. exact H.
Qed.

(** Equal numbers have the same nearest double, whatever fractions
    denote them. *)
Lemma roundDouble_comp (x y : Q) :
  (x == y)%Q → (roundDouble x == roundDouble y)%Q.
Proof.
  intros E. apply Qle_antisym; apply roundDouble_mono; rewrite E;
    apply Qle_refl.
Qed.

Lemma roundDouble_nonneg (x : Q) : (0 <= x)%Q → (0 <= roundDouble x)%Q.
Proof. intros H. apply (roundDouble_mono 0 x H). Qed.

Lemma roundDouble_nonpos (x : Q) : (x <= 0)%Q → (roundDouble x <= 0)%Q.
Proof. intros H. apply (roundDouble_mono x 0 H). Qed.

Lemma roundEven_error (y : Q) :
  (- (1 # 2) <= inject_Z (roundEven y) - y)%Q ∧
  (inject_Z (roundEven y) - y <= 1 # 2)%Q.
Proof.
  unfold roundEven.
  pose proof (Qfloor_le y) as H1. pose proof (Qlt_floor y) as H2.
  rewrite inject_Z_plus in H2. change (inject_Z 1) with 1%Q in H2.
  destruct (Qcompare_spec (y - inject_Z (Qfloor y)) (1 # 2)) as [C | C | C].
  - destruct (Z.even (Qfloor y)).
    + split; lra.
    + rewrite inject_Z_plus. change (inject_Z 1) with 1%Q. split; lra.
  - split; lra.
  - rewrite inject_Z_plus. change (inject_Z 1) with 1%Q. split; lra.
Qed.

(** What the rounding of a positive number returns: a significand of at
    most 53 bits (or [2^53], the next power of two) at an exponent not
    below the smallest, and no further from [x] than half a unit in the
    last place. *)
Lemma roundPos_spec (x : Q) :
  (0 < x)%Q →
  let m := roundEven (x / 2 ^ ulpExp x) in
  (roundPos x == inject_Z m * 2 ^ ulpExp x)%Q ∧
  0 ≤ m ≤ 2 ^ 53 ∧ -1074 ≤ ulpExp x ∧
  (- (2 ^ ulpExp x / 2) <= roundPos x - x)%Q ∧
  (roundPos x - x <= 2 ^ ulpExp x / 2)%Q.
Proof.
  intros Hx m. pose proof (pow2_pos (ulpExp x)) as Hp.
  split; [reflexivity|].
  assert (Hm0 : 0 ≤ m).
  { pose proof (roundEven_bounds (x / 2 ^ ulpExp x)) as [B _].
    assert (0 ≤ Qfloor (x / 2 ^ ulpExp x)); [|unfold m; lia].
    change 0 with (Qfloor 0). apply Qfloor_resp_le.
    apply Qle_shift_div_l; [exact Hp | lra]. }
  assert (Hm1 : m ≤ 2 ^ 53).
  { destruct (ilog2_spec x Hx) as [_ Ux].
    rewrite <- (roundEven_Z (2 ^ 53)). apply roundEven_mono.
    apply Qle_shift_div_r; [exact Hp|].
    rewrite (pow2_Z 53) by lia. rewrite <- pow2_add.
    apply Qlt_le_weak, Qlt_le_trans with (2 ^ (ilog2 x + 1))%Q; [exact Ux|].
    apply pow2_le. unfold ulpExp. lia. }
  split; [lia|]. split; [unfold ulpExp; lia|].
  destruct (roundEven_error (x / 2 ^ ulpExp x)) as [E1 E2]. fold m in E1, E2.
  assert (Ex : (x == x / 2 ^ ulpExp x * 2 ^ ulpExp x)%Q).
  { field. intros E0. rewrite E0 in Hp. discriminate. }
  unfold roundPos. fold m.
  set (p := (2 ^ ulpExp x)%Q) in *. set (y := (x / p)%Q) in *.
  assert (Ed : (inject_Z m * p - x == (inject_Z m - y) * p)%Q)
    by (rewrite Ex at 1; ring).
  rewrite Ed. split.
  - apply Qle_trans with (- (1 # 2) * p)%Q; [apply Qle_lteq; right; field|].
    apply Qmult_le_compat_r; [exact E1 | lra].
  - apply Qle_trans with ((1 # 2) * p)%Q; [|apply Qle_lteq; right; field].
    apply Qmult_le_compat_r; [exact E2 | lra].
Qed.

(** The rounding at work.  The doubles nearest to 16001.505 and
    5000.005 differ by a little less than 11001.5; their difference as
    the code computes it is the double 11001.5.  Likewise for the
    doubles nearest to 6047.2 and 2047.2 and the double 4000. *)
Lemma fsub_rounds :
  (fsub (8796920404707901 # 549755813888) (5497563636438139 # 1099511627776)
   == 22003 # 2)%Q ∧
  (fsub (6648966715487027 # 1099511627776) (9003680817532109 # 4398046511104)
   == 4000)%Q.
Proof. split; vm_compute; reflexivity. Qed.

(** So a reaction at 16001.505 after lights-out at 5000.005 is recorded
    as 11002 ms (latency 0), and a frame at 6047.2 of a countdown
    anchored at 2047.2 lights the fifth light. *)
Lemma rounded_differences_decide :
  calibrated (5497563636438139 # 1099511627776)
    (8796920404707901 # 549755813888) 0 = 11002 ∧
  toLight (9003680817532109 # 4398046511104)
    (6648966715487027 # 1099511627776) = 5.
Proof. split; vm_compute; reflexivity. Qed.

(** ** [Math.round] *)

Lemma Math_round_nonneg (x : Q) : (0 <= x)%Q → 0 ≤ Math_round x.
Proof.
  intros Hx. unfold Math_round. change 0 with (Qfloor 0).
  apply Qfloor_resp_le.
  apply Qle_trans with x; [exact Hx|].
  rewrite <- (Qplus_0_r x) at 1. apply Qplus_le_r. discriminate.
Qed.

Lemma Math_round_nonpos (x : Q) : (x <= 0)%Q → Math_round x ≤ 0.
Proof.
  intros Hx. unfold Math_round.
  assert (H1 : (inject_Z (Qfloor (x + (1 # 2))) < 1)%Q).
  { apply Qle_lt_trans with (x + (1 # 2))%Q; [apply Qfloor_le | lra]. }
  change 1%Q with (inject_Z 1) in H1. rewrite <- Zlt_Qlt in H1. lia.
Qed.

(** The three readings of the clamp.  The rounding of the second
    subtraction keeps the sign of [raw - latency]. *)
Lemma calibrated_spec (t_out perf_now : Q) (latency : Z) :
  let raw := fsub perf_now t_out in
  0 ≤ calibrated t_out perf_now latency ∧
  ((inject_Z latency <= raw)%Q →
     calibrated t_out perf_now latency
     = Math_round (fsub raw (inject_Z latency))) ∧
  ((raw < inject_Z latency)%Q → calibrated t_out perf_now latency = 0).
Proof.
  intros raw. unfold calibrated. fold raw. split; [lia|]. split; intros H.
  - pose proof (Math_round_nonneg (fsub raw (inject_Z latency))) as Hn.
    assert (0 <= fsub raw (inject_Z latency))%Q as H0
      by (apply roundDouble_nonneg; lra).
    specialize (Hn H0). lia.
  - pose proof (Math_round_nonpos (fsub raw (inject_Z latency))) as Hn.
    assert (fsub raw (inject_Z latency) <= 0)%Q as H0
      by (apply roundDouble_nonpos; lra).
    specialize (Hn H0). lia.
Qed.

(** ** Reaction signals during a round *)

Lemma handleReaction_timed (c : Closure) (t : Q) (iso : string) (w : World) :
  runningRef (refs w) = true →
  Qeq_bool (lightsOutTimeRef (refs w)) 0 = false →
  handleReaction c t iso w =
  let e := calibrated (lightsOutTimeRef (refs w)) t (c_systemLatency c) in
  pushResult {| time := Some e; jumpStart := false; timestamp := iso |}
    (setGameState result (setReactionTime (Some e) (stopRunningClean w))).
Proof.
  intros Hr Hlo. unfold handleReaction. rewrite Hr, Hlo. cbn [negb andb].
  destruct (stop_fields w) as (_ & _ & _ & Hrefs & _). rewrite Hrefs.
  reflexivity.
Qed.

Lemma handleReaction_jump (c : Closure) (t : Q) (iso : string) (w : World) :
  runningRef (refs w) = true →
  Qeq_bool (lightsOutTimeRef (refs w)) 0 = true →
  handleReaction c t iso w =
  pushResult {| time := None; jumpStart := true; timestamp := iso |}
    (setActiveLights 0
       (setGameState result (setJumpStart true (stopRunningClean w)))).
Proof.
  intros Hr Hlo. unfold handleReaction. rewrite Hr, Hlo. reflexivity.
Qed.

(** C1.  A reaction signal in [reacting], with the lights-out time stamp
    recorded (non-zero), records a timed attempt whose [time] is
    [max(0, round(raw - systemLatency))] for [raw = now - t_out], both
    subtractions being those of the code, on doubles; that value is a
    non-negative integer, equals the rounded difference when
    [raw >= systemLatency] and is [0] otherwise. *)
Theorem reaction_time_calibrated (w : World) (perf_now : Q) (iso : string) :
  reachable w →
  gameState (ui w) = reacting →
  ¬ (lightsOutTimeRef (refs w) == 0)%Q →
  let raw := fsub perf_now (lightsOutTimeRef (refs w)) in
  let latency := systemLatency (ui w) in
  let elapsedMs := Z.max 0 (Math_round (fsub raw (inject_Z latency))) in
  let w' := step w (EvReaction perf_now iso) in
  results (ui w') =
    take 10 ({| time := Some elapsedMs; jumpStart := false; timestamp := iso |}
             :: results (ui w)) ∧
  reactionTime (ui w') = Some elapsedMs ∧
  gameState (ui w') = result ∧
  0 ≤ elapsedMs ∧
  ((inject_Z latency <= raw)%Q →
     elapsedMs = Math_round (fsub raw (inject_Z latency))) ∧
  ((raw < inject_Z latency)%Q → elapsedMs = 0).
Proof.
  intros Hw Hg Hlo raw latency elapsedMs w'.
  pose proof (reachable_inv _ Hw) as HI.
  pose proof (inv_running _ (inv_pre _ HI)) as Hrun. rewrite Hg in Hrun.
  assert (Hq : Qeq_bool (lightsOutTimeRef (refs w)) 0 = false).
  { destruct (Qeq_bool _ _) eqn:E; [|reflexivity].
    apply Qeq_bool_iff in E. contradiction. }
  destruct (stop_fields w) as (Hu & _).
  subst w'. simpl. rewrite commit_ui, handleReaction_timed by assumption.
  rewrite (inv_listener_latency _ HI). cbv zeta.
  rewrite pushResult_ui. cbn. rewrite Hu.
  change (calibrated (lightsOutTimeRef (refs w)) perf_now (systemLatency (ui w)))
    with elapsedMs.
  repeat split; try reflexivity;
    apply (calibrated_spec (lightsOutTimeRef (refs w)) perf_now latency).
Qed.

(** C2.  A reaction signal in [countdown] or [waiting] records a jump
    start ([jumpStart = true], [time = null]), whatever number of lights
    is showing. *)
Theorem early_reaction_is_jump_start (w : World) (perf_now : Q)
    (iso : string) (lights : Z) :
  reachable w →
  gameState (ui w) = countdown ∨ gameState (ui w) = waiting →
  activeLights (ui w) = lights →
  let w' := step w (EvReaction perf_now iso) in
  results (ui w') =
    take 10 ({| time := None; jumpStart := true; timestamp := iso |}
             :: results (ui w)) ∧
  jumpStartFlag (ui w') = true ∧
  reactionTime (ui w') = reactionTime (ui w) ∧
  gameState (ui w') = result.
Proof.
  intros Hw Hg _ w'.
  pose proof (reachable_inv _ Hw) as HI.
  pose proof (inv_running _ (inv_pre _ HI)) as Hrun.
  pose proof (inv_armed _ (inv_pre _ HI)) as Harm.
  assert (Hr : runningRef (refs w) = true)
    by (destruct Hg as [E|E]; rewrite E in Hrun; exact Hrun).
  assert (Hlo : Qeq_bool (lightsOutTimeRef (refs w)) 0 = true)
    by (destruct Hg as [E|E]; rewrite E in Harm; rewrite Harm; reflexivity).
  destruct (stop_fields w) as (Hu & _).
  subst w'. simpl. rewrite commit_ui, handleReaction_jump by assumption.
  rewrite pushResult_ui. cbn. rewrite Hu. auto.
Qed.

(** ** The round-active flag *)

(** C10.  In every reachable state (that is, after every handler and
    callback) the round-active flag is set exactly in [countdown],
    [waiting] and [reacting]; while it is set, [startGame] and the Try
    Again click change nothing: not the flag, the state or the lights. *)
Theorem running_iff_round_active (w : World) :
  reachable w →
  (runningRef (refs w) = true ↔
     gameState (ui w) = countdown ∨ gameState (ui w) = waiting ∨
     gameState (ui w) = reacting) ∧
  (runningRef (refs w) = true →
     (∀ c t, startGame c t w = w) ∧ (∀ t, step w (EvTryAgain t) = w)).
Proof.
  intros Hw. pose proof (reachable_inv _ Hw) as HI.
  pose proof (inv_running _ (inv_pre _ HI)) as Hrun.
  split; [|intros Hr; split].
  - rewrite Hrun. destruct (gameState (ui w)); simpl;
      intuition (auto; discriminate).
  - intros c t. apply startGame_running. exact Hr.
  - intros t. simpl. rewrite startGame_running by exact Hr.
    destruct (tryAgainRendered w) eqn:E; [|reflexivity].
    apply andb_true_iff in E as [_ E]. apply bool_decide_eq_true in E.
    rewrite E, Hr in Hrun. discriminate.
Qed.

(** ** The attempt history *)

Lemma take_app_take {A : Type} (n m : nat) (l l' : list A) :
  (n ≤ m)%nat → take n (l ++ take m l') = take n (l ++ l').
Proof.
  revert n. induction l as [|x l IH]; intros n Hn; simpl.
  - rewrite take_take. f_equal. lia.
  - destruct n as [|n]; [reflexivity|]. simpl. f_equal. apply IH. lia.
Qed.

Lemma startGame_results (c : Closure) (t : Q) (w : World) :
  results (ui (startGame c t w)) = results (ui w).
Proof. unfold startGame. destruct (runningRef (refs w)); reflexivity. Qed.

Lemma frame_results (captured : Z) (now rnd : Q) (w : World) :
  results (ui (frame captured now rnd w)) = results (ui w).
Proof. unfold frame. destruct (negb _), (_ <? 5); reflexivity. Qed.

Lemma sampleCb_results (t0 t t' : Q) (w : World) :
  results (ui (sampleCb t0 t t' w)) = results (ui w).
Proof. unfold sampleCb. destruct (_ <? 12)%nat; reflexivity. Qed.

Lemma handleReaction_results (c : Closure) (t : Q) (iso : string) (w : World) :
  results (ui (handleReaction c t iso w)) = results (ui w) ∨
  ∃ r, results (ui (handleReaction c t iso w)) = take 10 (r :: results (ui w)).
Proof.
  unfold handleReaction. destruct (stop_fields w) as (Hu & _).
  destruct (negb _ && _).
  - left. apply startGame_results.
  - right. destruct (Qeq_bool _ _); eexists;
      rewrite pushResult_results; cbn; rewrite Hu; reflexivity.
Qed.

(** An event leaves the history alone or records one attempt. *)
Lemma step_results (w : World) (ev : Event) :
  results (ui (step w ev)) = results (ui w) ∨
  ∃ r, results (ui (step w ev)) = take 10 (r :: results (ui w)).
Proof.
  destruct ev as [t iso | t | id now rnd | id t t']; simpl.
  - rewrite commit_ui. apply handleReaction_results.
  - left. destruct (tryAgainRendered w); [|reflexivity].
    rewrite commit_ui. apply startGame_results.
  - left. destruct (pendingFrame id w); [|reflexivity].
    rewrite commit_ui, frame_results. reflexivity.
  - left. destruct (pendingTimer id w) as [[t0|]|]; [| |reflexivity];
      rewrite commit_ui; [rewrite sampleCb_results|]; reflexivity.
Qed.

Lemma results_bounded (w : World) :
  reachable w → (length (results (ui w)) ≤ 10)%nat.
Proof.
  induction 1 as [N st t0 | w ev Hw IH].
  - unfold mount, loadBest. simpl.
    destruct (st !! "best") as [s|]; [destruct (bool_decide _)|]; simpl; lia.
  - destruct (step_results w ev) as [-> | [r ->]]; [exact IH|].
    rewrite length_take. lia.
Qed.

Lemma recordAll_results (rs : list Result) (w : World) :
  (length (results (ui w)) ≤ 10)%nat →
  results (ui (recordAll rs w)) = take 10 (reverse rs ++ results (ui w)).
Proof.
  unfold recordAll. revert w. induction rs as [|r rs IH]; intros w Hw; simpl.
  - rewrite take_ge by exact Hw. reflexivity.
  - rewrite IH by (rewrite pushResult_results, length_take; lia).
    rewrite pushResult_results, reverse_cons, <- app_assoc.
    apply (take_app_take 10 10 (reverse rs) (r :: results (ui w))). lia.
Qed.

(** C6.  Whatever attempts are recorded, the history holds at most ten
    entries, newest first; with eleven attempts recorded into an empty
    history it is the last ten, newest first, and the oldest is gone. *)
Theorem history_capped_newest_first (w : World) (rs : list Result) :
  reachable w →
  let w' := recordAll rs w in
  (length (results (ui w')) ≤ 10)%nat ∧
  results (ui w') = take 10 (reverse rs ++ results (ui w)) ∧
  (∀ oldest rest,
     results (ui w) = [] → rs = oldest :: rest → length rest = 10%nat →
     results (ui w') = reverse rest ∧
     (oldest ∉ rest → oldest ∉ results (ui w'))).
Proof.
  intros Hw w'. pose proof (results_bounded _ Hw) as Hb.
  pose proof (recordAll_results rs w Hb) as Hr. fold w' in Hr.
  split; [rewrite Hr, length_take; lia|]. split; [exact Hr|].
  intros oldest rest Hnil -> Hlen.
  assert (E : results (ui w') = reverse rest).
  { rewrite Hr, Hnil, app_nil_r, reverse_cons.
    rewrite take_app_le by (rewrite length_reverse; lia).
    apply take_ge. rewrite length_reverse. lia. }
  split; [exact E|]. rewrite E. intros Hn Hin.
  apply Hn. apply elem_of_reverse. exact Hin.
Qed.

(** ** Entering [result] *)

Lemma startGame_gameState (c : Closure) (t : Q) (w : World) :
  gameState (ui (startGame c t w)) =
  if runningRef (refs w) then gameState (ui w) else countdown.
Proof. unfold startGame. destruct (runningRef (refs w)); reflexivity. Qed.

Lemma frame_gameState (captured : Z) (now rnd : Q) (w : World) :
  gameState (ui (frame captured now rnd w)) =
  if toLight (lightsStartRef (refs w)) now <? 5 then gameState (ui w)
  else waiting.
Proof. unfold frame. destruct (negb _), (_ <? 5); reflexivity. Qed.

Lemma sampleCb_game (t0 t t' : Q) (w : World) :
  gameState (ui (sampleCb t0 t t' w)) = gameState (ui w) ∧
  activeLights (ui (sampleCb t0 t t' w)) = activeLights (ui w).
Proof. unfold sampleCb. destruct (_ <? 12)%nat; split; reflexivity. Qed.

(** The only way into [result] is a reaction signal during a round. *)
Lemma step_into_result (w : World) (ev : Event) :
  Inv w → gameState (ui w) ≠ result → gameState (ui (step w ev)) = result →
  ∃ t iso, ev = EvReaction t iso ∧ runningRef (refs w) = true.
Proof.
  intros HI Hg Hg'. pose proof (inv_pre _ HI) as HP.
  destruct ev as [t iso | t | id now rnd | id t t']; simpl in Hg'.
  - exists t, iso. split; [reflexivity|].
    destruct (runningRef (refs w)) eqn:Er; [reflexivity|]. exfalso.
    rewrite commit_ui in Hg'. unfold handleReaction in Hg'.
    rewrite Er, (inv_listener_state _ HI) in Hg'.
    pose proof (inv_running _ HP) as Hrun. rewrite Er in Hrun.
    assert (Hc : negb false && (bool_decide (gameState (ui w) = idle)
                                || bool_decide (gameState (ui w) = result))
                 = true)
      by (destruct (gameState (ui w)); try discriminate; reflexivity).
    rewrite Hc, startGame_gameState, Er in Hg'. discriminate.
  - exfalso. destruct (tryAgainRendered w) eqn:E; [|contradiction].
    apply andb_true_iff in E as [_ E]. apply bool_decide_eq_true in E.
    contradiction.
  - exfalso. destruct (pendingFrame id w) as [captured|] eqn:E;
      [|contradiction].
    rewrite commit_ui, frame_gameState in Hg'.
    destruct (_ <? 5); [|discriminate]. contradiction.
  - exfalso. destruct (pendingTimer id w) as [[t0|]|] eqn:E;
      [| |contradiction]; rewrite commit_ui in Hg'.
    + destruct (sampleCb_game t0 t t' (clearTimeout id w)) as [Hs _].
      rewrite Hs in Hg'. contradiction.
    + discriminate.
Qed.

(** In [result] no delivered callback touches the game. *)
Lemma callback_in_result (w : World) (ev : Event) :
  Inv w → gameState (ui w) = result → isCallback ev →
  gameState (ui (step w ev)) = result ∧
  activeLights (ui (step w ev)) = activeLights (ui w).
Proof.
  intros HI Hg Hev. pose proof (inv_pre _ HI) as HP.
  destruct ev as [t iso | t | id now rnd | id t t']; try contradiction; simpl.
  - destruct (pendingFrame id w) as [captured|] eqn:E; [|auto].
    destruct (pendingFrame_inv _ _ _ HP E) as (Hc & _). congruence.
  - destruct (pendingTimer id w) as [[t0|]|] eqn:E; [| |auto].
    + rewrite commit_ui.
      destruct (sampleCb_game t0 t t' (clearTimeout id w)) as [-> ->]. auto.
    + apply pendingTimer_inv in E as (tm & Hin & _ & Hcb).
      pose proof (proj1 (Forall_forall _ _) (inv_timers _ HP) _ Hin) as Hok.
      unfold timer_ok in Hok. rewrite Hcb in Hok.
      destruct Hok as (_ & Hwait & _). congruence.
Qed.

Lemma callbacks_in_result (w : World) (evs : list Event) :
  Inv w → gameState (ui w) = result → Forall isCallback evs →
  gameState (ui (run w evs)) = result ∧
  activeLights (ui (run w evs)) = activeLights (ui w).
Proof.
  revert w. induction evs as [|ev evs IH]; intros w HI Hg Hevs; simpl.
  - auto.
  - apply Forall_cons in Hevs as [Hev Hevs].
    destruct (callback_in_result w ev HI Hg Hev) as [Hg' Hl'].
    destruct (IH (step w ev) (step_inv _ _ HI) Hg' Hevs) as [? ?].
    split; congruence.
Qed.

(** C4.  Whenever a step enters [result] (from either path), afterwards
    no animation-frame request and no lights-out timer is pending, both
    handles are cleared, and no sequence of callback deliveries changes
    the game state or the lights. *)
Theorem result_cancels_callbacks (w : World) (ev : Event) :
  reachable w →
  gameState (ui w) ≠ result →
  gameState (ui (step w ev)) = result →
  let w' := step w ev in
  rafs (host w') = [] ∧
  Forall isSample (timers (host w')) ∧
  rafRef (refs w') = None ∧ timeoutRef (refs w') = None ∧
  runningRef (refs w') = false ∧
  (∀ evs, Forall isCallback evs →
     gameState (ui (run w' evs)) = result ∧
     activeLights (ui (run w' evs)) = activeLights (ui w')).
Proof.
  intros Hw Hg Hg' w'. pose proof (reachable_inv _ Hw) as HI.
  pose proof (inv_pre _ HI) as HP.
  destruct (step_into_result w ev HI Hg Hg') as (t & iso & -> & Hr).
  assert (HI' : Inv w') by (apply step_inv; exact HI).
  destruct (stop_fields w) as (_ & _ & _ & Hrefs & _).
  destruct (stop_timers w HP) as (Hs & _ & _).
  pose proof (stop_rafs w HP) as Hnil.
  assert (Hshape :
    timers (host w') = timers (host (stopRunningClean w)) ∧
    rafs (host w') = rafs (host (stopRunningClean w)) ∧
    rafRef (refs w') = None ∧ timeoutRef (refs w') = None ∧
    runningRef (refs w') = false).
  { subst w'. simpl. rewrite commit_host, commit_refs.
    destruct (Qeq_bool (lightsOutTimeRef (refs w)) 0) eqn:Elo;
      [rewrite handleReaction_jump by assumption
      |rewrite handleReaction_timed by assumption; cbv zeta];
      unfold pushResult; cbn [jumpStart time negb];
      try (destruct (ltNum _ _)); cbn; rewrite Hrefs; auto. }
  destruct Hshape as (Ht & Hrf & Hraf & Htmo & Hrun).
  rewrite Ht, Hrf, Hnil.
  split; [reflexivity|]. split; [exact Hs|]. do 3 (split; [assumption|]).
  intros evs Hevs. apply callbacks_in_result; assumption.
Qed.

(** ** Calibration *)

#[global] Instance Qle_total : Total Qle.
Proof.
  intros x y. destruct (Qlt_le_dec x y) as [H|H]; [left|right]; auto.
  apply Qlt_le_weak. exact H.
Qed.

Lemma median_defined (l : list Q) : l ≠ [] → is_Some (median l).
Proof.
  intros Hl. unfold median. apply lookup_lt_is_Some.
  destruct l as [|x l]; [contradiction|].
  apply Nat.div_lt; simpl; lia.
Qed.

Lemma startGame_isCalibrating (c : Closure) (t : Q) (w : World) :
  isCalibrating (ui (startGame c t w)) = isCalibrating (ui w).
Proof. unfold startGame. destruct (runningRef (refs w)); reflexivity. Qed.

Lemma handleReaction_isCalibrating (c : Closure) (t : Q) (iso : string)
    (w : World) :
  isCalibrating (ui (handleReaction c t iso w)) = isCalibrating (ui w).
Proof.
  unfold handleReaction. destruct (stop_fields w) as (Hu & _).
  destruct (negb _ && _); [apply startGame_isCalibrating|].
  destruct (Qeq_bool _ _); rewrite pushResult_ui; cbn; rewrite Hu; reflexivity.
Qed.

Lemma frame_isCalibrating (captured : Z) (now rnd : Q) (w : World) :
  isCalibrating (ui (frame captured now rnd w)) = isCalibrating (ui w).
Proof. unfold frame. destruct (negb _), (_ <? 5); reflexivity. Qed.

(** Calibration ends only in the sample callback. *)
Lemma calibration_ends (w : World) (ev : Event) :
  isCalibrating (ui (step w ev)) ≠ isCalibrating (ui w) →
  ∃ id t0 t t', ev = EvTimeout id t t' ∧ pendingTimer id w = Some (SampleCb t0).
Proof.
  intros Hne. destruct ev as [t iso | t | id now rnd | id t t']; simpl in Hne.
  - rewrite commit_ui, handleReaction_isCalibrating in Hne. contradiction.
  - destruct (tryAgainRendered w); [|contradiction].
    rewrite commit_ui, startGame_isCalibrating in Hne. contradiction.
  - destruct (pendingFrame id w); [|contradiction].
    rewrite commit_ui, frame_isCalibrating in Hne. contradiction.
  - destruct (pendingTimer id w) as [[t0|]|] eqn:E; [| |contradiction].
    + exists id, t0, t, t'. auto.
    + rewrite commit_ui in Hne. contradiction.
Qed.

(** C3, as the code has it.  The step that ends calibration is the
    twelfth sample callback; it stores [max(0, round(m))], a non-negative
    integer, where [m] is the element at index 6 (the upper of the two
    middle elements) of the twelve samples sorted in ascending order.
    The last sample is the difference [t - t0] the callback computes. *)
Theorem calibration_latency (w : World) (ev : Event) :
  reachable w →
  isCalibrating (ui w) = true →
  isCalibrating (ui (step w ev)) = false →
  ∃ id t0 t t',
    ev = EvTimeout id t t' ∧ pendingTimer id w = Some (SampleCb t0) ∧
    let collected := samples (calib w) ++ [fsub t t0] in
    length collected = 12%nat ∧
    samples (calib (step w ev)) = sortNumbers collected ∧
    Sorted Qle (sortNumbers collected) ∧
    sortNumbers collected ≡ₚ collected ∧
    ∃ m, sortNumbers collected !! 6%nat = Some m ∧
         systemLatency (ui (step w ev)) = Z.max 0 (Math_round m) ∧
         0 ≤ systemLatency (ui (step w ev)).
Proof.
  intros Hw Hc Hc'. pose proof (reachable_inv _ Hw) as HI.
  destruct (inv_count _ (inv_pre _ HI)) as [Hlen Hcnt]. rewrite Hc in Hcnt.
  destruct (calibration_ends w ev) as (id & t0 & t & t' & -> & Hp);
    [congruence|].
  exists id, t0, t, t'. split; [reflexivity|]. split; [exact Hp|].
  intros collected. simpl in *. rewrite Hp in *.
  rewrite commit_ui, commit_calib in *.
  unfold sampleCb in *. cbn [calib with_calib count samples clearTimeout with_host] in *.
  destruct (S (count (calib w)) <? 12)%nat eqn:E;
    [cbn in Hc'; congruence|].
  apply Nat.ltb_ge in E.
  assert (Hl : length collected = 12%nat)
    by (unfold collected; rewrite length_app; simpl; lia).
  split; [exact Hl|]. cbn. fold collected.
  split; [reflexivity|].
  split; [apply Sorted_merge_sort; apply _|].
  split; [apply merge_sort_Permutation|].
  unfold latencyOf, median. rewrite length_sortNumbers, Hl.
  change (12 `div` 2)%nat with 6%nat.
  destruct (sortNumbers collected !! 6%nat) as [m|] eqn:Em.
  - exists m. repeat split; lia.
  - apply lookup_ge_None in Em. rewrite length_sortNumbers in Em. lia.
Qed.

(** C3 as stated fails: no fixed buffer makes the stored latency the
    lower-middle element of the sorted samples.  Twelve round trips of
    1 ms give latency 1 (buffer 0); six of 1 ms and six of 2 ms give
    latency 2 while the lower-middle element is 1 (buffer 1). *)
Lemma latency_is_not_lower_median :
  ¬ ∃ buffer : Q, ∀ ds : list Q, length ds = 12%nat →
      ∃ m, lowerMedian ds = Some m ∧
           (inject_Z (systemLatency (ui (calibrationRun ds))) == m + buffer)%Q.
Proof.
  intros [buffer H].
  destruct (H [1;1;1;1;1;1;1;1;1;1;1;1]%Q eq_refl) as (m1 & Hm1 & E1).
  destruct (H [1;2;1;2;1;2;1;2;1;2;1;2]%Q eq_refl) as (m2 & Hm2 & E2).
  vm_compute in Hm1. vm_compute in Hm2.
  injection Hm1 as <-. injection Hm2 as <-.
  assert (L1 : systemLatency (ui (calibrationRun [1;1;1;1;1;1;1;1;1;1;1;1]%Q)) = 1)
    by (vm_compute; reflexivity).
  assert (L2 : systemLatency (ui (calibrationRun [1;2;1;2;1;2;1;2;1;2;1;2]%Q)) = 2)
    by (vm_compute; reflexivity).
  rewrite L1 in E1. rewrite L2 in E2.
  assert (B0 : (buffer == 0)%Q).
  { apply (Qplus_inj_l _ _ 1). rewrite <- E1. reflexivity. }
  rewrite B0 in E2. revert E2. unfold Qeq. simpl. lia.
Qed.

Lemma calibration_latency_witness :
  let w := calibrationRun [1;2;1;2;1;2;1;2;1;2;1]%Q in
  ∃ m, sortNumbers (samples (calib w) ++ [fsub 18 16]) !! 6%nat = Some m ∧
       systemLatency (ui (step w (EvTimeout 12 18 18))) = Z.max 0 (Math_round m).
Proof.
  intros w.
  destruct (calibration_latency w (EvTimeout 12 18 18))
    as (id & t0 & t & t' & Hev & Hp & _ & _ & _ & _ & m & Hm & Hl & _).
  - apply reachable_run, reach_mount.
  - vm_compute. reflexivity.
  - vm_compute. reflexivity.
  - injection Hev as <- <- <-. vm_compute in Hp. injection Hp as <-.
    exists m. split; [|exact Hl].
    rewrite <- Hm. vm_compute. reflexivity.
Defined.

(** ** The best time *)

Lemma pushResult_jump_best (r : Result) (w : World) :
  jumpStart r = true →
  bestRef (refs (pushResult r w)) = bestRef (refs w) ∧
  localStorage (host (pushResult r w)) = localStorage (host w).
Proof. intros Hj. unfold pushResult. rewrite Hj. split; reflexivity. Qed.

(** What [pushResult] does with the best time for a timed attempt. *)
Lemma pushResult_timed_best (t : Z) (iso : string) (w : World) :
  let w' := pushResult {| time := Some t; jumpStart := false;
                          timestamp := iso |} w in
  if ltNum t (orInfinity (bestRef (refs w))) then
    bestRef (refs w') = JFin (inject_Z t) ∧
    localStorage (host w') = <["best" := String_of t]> (localStorage (host w))
  else
    bestRef (refs w') = bestRef (refs w) ∧
    localStorage (host w') = localStorage (host w).
Proof.
  unfold pushResult. cbn [jumpStart time negb].
  change (refs (setResults _ w)) with (refs w).
  destruct (ltNum t _); split; reflexivity.
Qed.

(** C5, the code at the failing input.  After a first attempt of 0 ms
    the best time is 0 and ["0"] is stored; the next attempt of 150 ms
    replaces it, so the best time has gone up. *)
Theorem best_zero_is_overwritten :
  let w := run (mount (λ _, JNaN) ∅ 0%Q) sessionZeroBest in
  let w' := run w secondRound in
  head (results (ui w)) =
    Some {| time := Some 0; jumpStart := false; timestamp := "first" |} ∧
  bestRef (refs w) = JFin 0 ∧
  localStorage (host w) !! "best" = Some "0" ∧
  head (results (ui w')) =
    Some {| time := Some 150; jumpStart := false; timestamp := "second" |} ∧
  bestRef (refs w') = JFin 150 ∧
  localStorage (host w') !! "best" = Some "150".
Proof. vm_compute. repeat split; reflexivity. Qed.

(** ** Calibrating mode *)

(** C8 as stated fails: on a freshly mounted page, still calibrating, a
    reaction signal starts a round, and a second one records a jump
    start; calibration has not completed in either state. *)
Lemma reaction_signal_not_blocked_while_calibrating :
  let w := mount (λ _, JNaN) ∅ 0%Q in
  let w1 := step w (EvReaction 1 "a") in
  let w2 := step w1 (EvReaction 2 "b") in
  isCalibrating (ui w) = true ∧ gameState (ui w) = idle ∧
  isCalibrating (ui w1) = true ∧ gameState (ui w1) = countdown ∧
  runningRef (refs w1) = true ∧
  isCalibrating (ui w2) = true ∧ gameState (ui w2) = result ∧
  results (ui w2) =
    [ {| time := None; jumpStart := true; timestamp := "b" |} ].
Proof. vm_compute. repeat split; reflexivity. Qed.

Lemma setIsCalibrating_commit (b : bool) (w : World) :
  commit (setIsCalibrating b w) = setIsCalibrating b (commit w).
Proof.
  unfold commit. cbn. destruct (_ && _); reflexivity.
Qed.

Lemma setIsCalibrating_pushResult (b : bool) (r : Result) (w : World) :
  pushResult r (setIsCalibrating b w) = setIsCalibrating b (pushResult r w).
Proof.
  unfold pushResult.
  destruct (negb (jumpStart r)); [destruct (time r) as [t|]|]; try reflexivity.
  cbn. destruct (ltNum t _); reflexivity.
Qed.

Lemma setIsCalibrating_stop (b : bool) (w : World) :
  stopRunningClean (setIsCalibrating b w) =
  setIsCalibrating b (stopRunningClean w).
Proof.
  destruct_world w. unfold stopRunningClean. cbn.
  destruct rafRef0 as [[|?]|], timeoutRef0 as [[|?]|]; reflexivity.
Qed.

Lemma setIsCalibrating_handleReaction (b : bool) (c : Closure) (t : Q)
    (iso : string) (w : World) :
  handleReaction c t iso (setIsCalibrating b w) =
  setIsCalibrating b (handleReaction c t iso w).
Proof.
  unfold handleReaction. cbn [refs setIsCalibrating with_ui].
  destruct (negb _ && _).
  - unfold startGame. cbn. destruct (runningRef (refs w)); reflexivity.
  - rewrite !setIsCalibrating_stop.
    destruct (Qeq_bool _ _); cbv zeta;
      rewrite <- setIsCalibrating_pushResult; reflexivity.
Qed.

(** C8, as the code has it.  While calibrating, the component is in the
    calibrating view: the Try Again control is not rendered and a click
    on it changes nothing.  The window handlers are subscribed all the
    same and never read the calibrating flag: a reaction signal does
    while calibrating exactly what it does afterwards. *)
Theorem calibrating_gates_only_the_view (w : World) :
  isCalibrating (ui w) = true →
  tryAgainRendered w = false ∧
  (∀ t, step w (EvTryAgain t) = w) ∧
  (∀ t iso,
     step (setIsCalibrating false w) (EvReaction t iso) =
     setIsCalibrating false (step w (EvReaction t iso))) ∧
  (∀ t iso,
     isCalibrating (ui (step w (EvReaction t iso))) = true).
Proof.
  intros Hc.
  assert (Hr : tryAgainRendered w = false)
    by (unfold tryAgainRendered; rewrite Hc; reflexivity).
  split; [exact Hr|]. split; [|split].
  - intros t. simpl. rewrite Hr. reflexivity.
  - intros t iso. simpl.
    change (listener (setIsCalibrating false w)) with (listener w).
    rewrite setIsCalibrating_handleReaction. apply setIsCalibrating_commit.
  - intros t iso. simpl.
    rewrite commit_ui, handleReaction_isCalibrating. exact Hc.
Qed.

Lemma calibrating_gates_only_the_view_witness :
  let w := mount (λ _, JNaN) ∅ 0%Q in
  isCalibrating (ui w) = true ∧
  tryAgainRendered w = false ∧
  step w (EvTryAgain 1) = w.
Proof.
  intros w.
  assert (Hc : isCalibrating (ui w) = true) by (vm_compute; reflexivity).
  destruct (calibrating_gates_only_the_view w Hc) as (Hr & Ht & _).
  split; [exact Hc|]. split; [exact Hr|]. apply Ht.
Defined.

(** ** The light sequence *)






Lemma frame_activeLights (captured : Z) (now rnd : Q) (w : World) :
  activeLights (ui (frame captured now rnd w)) =
  if toLight (lightsStartRef (refs w)) now =? captured
  then activeLights (ui w)
  else toLight (lightsStartRef (refs w)) now.
Proof.
  unfold frame. destruct (_ =? captured), (_ <? 5); reflexivity.
Qed.


Lemma sampleCb_refs (t0 t t' : Q) (w : World) :
  refs (sampleCb t0 t t' w) = refs w.
Proof. unfold sampleCb. destruct (_ <? 12)%nat; reflexivity. Qed.












Lemma lightsOut_pending (id : nat) (w : World) :
  Inv w → pendingTimer id w = Some LightsOutCb → gameState (ui w) = waiting.
Proof.
  intros HI E. apply pendingTimer_inv in E as (tm & Hin & _ & Hcb).
  pose proof (proj1 (Forall_forall _ _) (inv_timers _ (inv_pre _ HI)) _ Hin)
    as Hok.
  unfold timer_ok in Hok. rewrite Hcb in Hok. tauto.
Qed.



(** ** The stored best time *)

Lemma forgetBest_commit (w : World) :
  commit (forgetBest w) = forgetBest (commit w).
Proof. unfold commit. cbn. destruct (_ && _); reflexivity. Qed.

Lemma forgetBest_startGame (c : Closure) (t : Q) (w : World) :
  startGame c t (forgetBest w) = forgetBest (startGame c t w).
Proof. unfold startGame. cbn. destruct (runningRef (refs w)); reflexivity. Qed.

Lemma forgetBest_stop (w : World) :
  stopRunningClean (forgetBest w) = forgetBest (stopRunningClean w).
Proof.
  destruct_world w. unfold stopRunningClean. cbn.
  destruct rafRef0 as [[|?]|], timeoutRef0 as [[|?]|]; reflexivity.
Qed.

Lemma forgetBest_frame (captured : Z) (now rnd : Q) (w : World) :
  frame captured now rnd (forgetBest w) =
  forgetBest (frame captured now rnd w).
Proof. unfold frame. cbn. destruct (negb _), (_ <? 5); reflexivity. Qed.

Lemma forgetBest_sampleCb (t0 t t' : Q) (w : World) :
  sampleCb t0 t t' (forgetBest w) = forgetBest (sampleCb t0 t t' w).
Proof.
  unfold sampleCb.
  cbn [calib with_calib count forgetBest with_host set_bestRef with_refs].
  destruct (S (count (calib w)) <? 12)%nat; reflexivity.
Qed.

(** A jump start leaves the best time alone, so it commutes. *)
Lemma forgetBest_pushResult_jump (iso : string) (w : World) :
  pushResult {| time := None; jumpStart := true; timestamp := iso |}
    (forgetBest w) =
  forgetBest
    (pushResult {| time := None; jumpStart := true; timestamp := iso |} w).
Proof. reflexivity. Qed.

(** With no effective best, a timed attempt becomes the best and is
    stored, and from then on nothing tells the two pages apart. *)
Lemma pushResult_first_best (t : Z) (iso : string) (w : World) :
  orInfinity (bestRef (refs w)) = JPosInf →
  let r := {| time := Some t; jumpStart := false; timestamp := iso |} in
  pushResult r (forgetBest w) = pushResult r w ∧
  bestRef (refs (pushResult r w)) = JFin (inject_Z t) ∧
  localStorage (host (pushResult r w)) !! "best" = Some (String_of t).
Proof.
  intros Hb r. unfold pushResult. cbn [jumpStart time negb r].
  change (refs (setResults _ w)) with (refs w).
  change (refs (setResults _ (forgetBest w))) with (refs (forgetBest w)).
  rewrite Hb. cbn [forgetBest refs set_bestRef with_refs with_host bestRef
                     orInfinity truthy ltNum].
  split; [|split].
  - destruct_world w.
    unfold setItem, set_bestRef, setResults, forgetBest, with_host, with_ui,
      with_refs. simpl. rewrite insert_delete_eq. reflexivity.
  - reflexivity.
  - cbn. apply lookup_insert_eq.
Qed.

(** One event on a page whose best time is still unset: either the page
    without a stored best takes the same step, or the event recorded the
    first timed attempt and the two pages have become equal. *)
Lemma step_forgetBest (w : World) (ev : Event) :
  orInfinity (bestRef (refs w)) = JPosInf →
  (step (forgetBest w) ev = forgetBest (step w ev) ∧
   bestRef (refs (step w ev)) = bestRef (refs w))
  ∨ step (forgetBest w) ev = step w ev.
Proof.
  intros Hb. destruct ev as [t iso | t | id now rnd | id t t']; simpl.
  - change (listener (forgetBest w)) with (listener w).
    unfold handleReaction.
    change (refs (forgetBest w)) with (set_bestRef JPosInf w).(refs).
    cbn [refs set_bestRef with_refs runningRef lightsOutTimeRef].
    destruct (negb _ && _).
    + left. rewrite forgetBest_startGame, forgetBest_commit.
      split; [reflexivity|]. rewrite commit_refs.
      unfold startGame. destruct (runningRef (refs w)); reflexivity.
    + destruct (stop_fields w) as (_ & _ & _ & Hrefs & _).
      destruct (Qeq_bool _ _); cbv zeta; rewrite !forgetBest_stop.
      * left. split; [rewrite <- forgetBest_commit; reflexivity|].
        rewrite commit_refs. cbn. rewrite Hrefs. reflexivity.
      * right. f_equal.
        refine (proj1 (pushResult_first_best _ iso
                  (setGameState result
                     (setReactionTime _ (stopRunningClean w))) _)).
        cbn. rewrite Hrefs. exact Hb.
  - left. change (tryAgainRendered (forgetBest w)) with (tryAgainRendered w).
    destruct (tryAgainRendered w); [|auto].
    change (render (forgetBest w)) with (render w).
    rewrite forgetBest_startGame, forgetBest_commit.
    split; [reflexivity|]. rewrite commit_refs.
    unfold startGame. destruct (runningRef (refs w)); reflexivity.
  - left. change (pendingFrame id (forgetBest w)) with (pendingFrame id w).
    destruct (pendingFrame id w); [|auto].
    change (cancelAnimationFrame id (forgetBest w))
      with (forgetBest (cancelAnimationFrame id w)).
    rewrite forgetBest_frame, forgetBest_commit.
    split; [reflexivity|]. rewrite commit_refs.
    unfold frame. destruct (negb _), (_ <? 5); reflexivity.
  - left. change (pendingTimer id (forgetBest w)) with (pendingTimer id w).
    destruct (pendingTimer id w) as [[t0|]|]; [| |auto];
      change (clearTimeout id (forgetBest w))
        with (forgetBest (clearTimeout id w)).
    + rewrite forgetBest_sampleCb, forgetBest_commit.
      split; [reflexivity|]. rewrite commit_refs, sampleCb_refs. reflexivity.
    + split; [rewrite <- forgetBest_commit; reflexivity|].
      rewrite commit_refs. reflexivity.
Qed.

Lemma mount_forgetBest (Number : string → JsNum)
    (storage : gmap string string) (t0 : Q) :
  mount Number (delete "best" storage) t0 =
  forgetBest (mount Number storage t0).
Proof.
  unfold mount, loadBest. cbn [initialWorld host localStorage].
  rewrite lookup_delete_eq.
  destruct (storage !! "best") as [s|]; [destruct (bool_decide (s = ""))|];
    unfold forgetBest, sampleOnce, setTimeout, with_host, set_bestRef,
      with_refs; simpl; rewrite ?delete_delete_eq; try reflexivity.
Qed.

Lemma run_forgetBest (evs : list Event) (w : World) :
  orInfinity (bestRef (refs w)) = JPosInf →
  run w evs = run (forgetBest w) evs ∨
  (run (forgetBest w) evs = forgetBest (run w evs) ∧
   bestRef (refs (run w evs)) = bestRef (refs w)).
Proof.
  revert w. induction evs as [|ev evs IH]; intros w Hb; simpl.
  - right. auto.
  - destruct (step_forgetBest w ev Hb) as [[Hs Hbest] | Hs].
    + rewrite Hs, <- Hbest. apply IH. rewrite Hbest. exact Hb.
    + left. rewrite Hs. reflexivity.
Qed.

(** C9.  The key ["best"] is read by the mount effect only.  When it
    holds a string that [Number] turns into [NaN], the loaded value
    counts as no best ([NaN || Infinity]); the page then runs exactly as
    a page with nothing stored, the two differing in the best slot alone
    until the first timed attempt, which becomes the best and is stored
    on both, after which they are equal. *)
Theorem corrupt_best_is_no_best (Number : string → JsNum)
    (storage : gmap string string) (stored : string) (t0 : Q)
    (evs : list Event) :
  storage !! "best" = Some stored →
  Number stored = JNaN →
  let loaded := bestRef (refs (mount Number storage t0)) in
  let wc := run (mount Number storage t0) evs in
  let wm := run (mount Number (delete "best" storage) t0) evs in
  orInfinity loaded = JPosInf ∧
  bestRef (refs (mount Number (delete "best" storage) t0)) = JPosInf ∧
  (wc = wm ∨ (wm = forgetBest wc ∧ bestRef (refs wc) = loaded)) ∧
  (bestRef (refs wc) = loaded →
   ∀ t iso,
     let r := {| time := Some t; jumpStart := false; timestamp := iso |} in
     bestRef (refs (pushResult r wc)) = JFin (inject_Z t) ∧
     localStorage (host (pushResult r wc)) !! "best" = Some (String_of t) ∧
     pushResult r wm = pushResult r wc).
Proof.
  intros Hs Hn loaded wc wm.
  assert (Hl : orInfinity loaded = JPosInf).
  { unfold loaded, mount, loadBest. cbn [initialWorld host localStorage].
    rewrite Hs. destruct (bool_decide (stored = "")); [reflexivity|].
    cbn. rewrite Hn. reflexivity. }
  assert (Hsim : wc = wm ∨ (wm = forgetBest wc ∧ bestRef (refs wc) = loaded)).
  { unfold wc, wm. rewrite mount_forgetBest.
    apply run_forgetBest. exact Hl. }
  split; [exact Hl|]. split; [rewrite mount_forgetBest; reflexivity|].
  split; [exact Hsim|].
  intros Hb t iso r.
  assert (Hc : orInfinity (bestRef (refs wc)) = JPosInf)
    by (rewrite Hb; exact Hl).
  destruct (pushResult_first_best t iso wc Hc) as (H1 & H2 & H3).
  split; [exact H2|]. split; [exact H3|].
  destruct Hsim as [<- | [-> _]]; [reflexivity | exact H1].
Qed.

Lemma corrupt_best_is_no_best_witness :
  let Number := λ s : string, if bool_decide (s = "0") then JFin 0 else JNaN in
  let storage : gmap string string := {[ "best" := "fastest" ]} in
  let w := run (mount Number storage 0%Q) [EvReaction 5 "a"; EvReaction 9 "b"] in
  bestRef (refs w) = JNaN ∧
  bestRef (refs (pushResult {| time := Some 180; jumpStart := false;
                               timestamp := "c" |} w)) = JFin 180.
Proof.
  intros Number storage w.
  assert (Hs : storage !! "best" = Some "fastest") by (vm_compute; reflexivity).
  assert (Hn : Number "fastest" = JNaN) by (vm_compute; reflexivity).
  assert (Hb : bestRef (refs w) = JNaN) by (vm_compute; reflexivity).
  split; [exact Hb|].
  destruct (corrupt_best_is_no_best Number storage "fastest" 0%Q
              [EvReaction 5 "a"; EvReaction 9 "b"] Hs Hn)
    as (_ & _ & _ & Hfirst).
  apply (Hfirst Hb 180 "c").
Defined.

(** ** The theorems at concrete sessions *)

Lemma reaction_time_calibrated_witness :
  gameState (ui armedPage) = reacting ∧
  systemLatency (ui armedPage) = 8 ∧
  reactionTime (ui (step armedPage (EvReaction (29269 # 4) "r"))) = Some 197.
Proof.
  assert (Hg : gameState (ui armedPage) = reacting)
    by (vm_compute; reflexivity).
  assert (Hlo : ¬ (lightsOutTimeRef (refs armedPage) == 0)%Q)
    by (vm_compute; discriminate).
  split; [exact Hg|]. split; [vm_compute; reflexivity|].
  destruct (reaction_time_calibrated armedPage (29269 # 4) "r"
              (reachable_run _ _ (reach_mount _ _ _)) Hg Hlo)
    as (_ & Hr & _).
  rewrite Hr. vm_compute. reflexivity.
Defined.

Lemma early_reaction_is_jump_start_witness :
  gameState (ui countdownPage) = countdown ∧
  activeLights (ui countdownPage) = 2 ∧
  results (ui (step countdownPage (EvReaction 1500 "r"))) =
    [ {| time := None; jumpStart := true; timestamp := "r" |} ].
Proof.
  assert (Hg : gameState (ui countdownPage) = countdown)
    by (vm_compute; reflexivity).
  assert (Hl : activeLights (ui countdownPage) = 2)
    by (vm_compute; reflexivity).
  split; [exact Hg|]. split; [exact Hl|].
  destruct (early_reaction_is_jump_start countdownPage 1500 "r" 2
              (reachable_run _ _ (reach_mount _ _ _)) (or_introl Hg) Hl)
    as (Hr & _).
  rewrite Hr. vm_compute. reflexivity.
Defined.

Lemma running_iff_round_active_witness :
  runningRef (refs countdownPage) = true ∧
  step countdownPage (EvTryAgain 1500) = countdownPage.
Proof.
  assert (Hr : runningRef (refs countdownPage) = true)
    by (vm_compute; reflexivity).
  split; [exact Hr|].
  destruct (running_iff_round_active countdownPage
              (reachable_run _ _ (reach_mount _ _ _))) as (_ & Hno).
  apply (Hno Hr).
Defined.

Lemma result_cancels_callbacks_witness :
  rafs (host countdownPage) = [(3%nat, 0)] ∧
  rafs (host (step countdownPage (EvReaction 1500 "r"))) = [] ∧
  gameState (ui (run (step countdownPage (EvReaction 1500 "r"))
                   [EvFrame 3 2026 0])) = result.
Proof.
  split; [vm_compute; reflexivity|].
  assert (Hg : gameState (ui countdownPage) ≠ result)
    by (vm_compute; discriminate).
  assert (Hg' : gameState (ui (step countdownPage (EvReaction 1500 "r")))
                = result) by (vm_compute; reflexivity).
  destruct (result_cancels_callbacks countdownPage (EvReaction 1500 "r")
              (reachable_run _ _ (reach_mount _ _ _)) Hg Hg')
    as (Hrafs & _ & _ & _ & _ & Hlate).
  split; [exact Hrafs|].
  apply (Hlate [EvFrame 3 2026 0]). repeat constructor.
Defined.

Lemma history_capped_newest_first_witness :
  let attempt (n : Z) :=
    {| time := Some n; jumpStart := false; timestamp := "" |} in
  let w := mount (λ _, JNaN) ∅ 0%Q in
  results (ui (recordAll (attempt <$> [1; 2; 3; 4; 5; 6; 7; 8; 9; 10; 11]) w))
  = attempt <$> [11; 10; 9; 8; 7; 6; 5; 4; 3; 2].
Proof.
  intros attempt w.
  destruct (history_capped_newest_first w
              (attempt <$> [1; 2; 3; 4; 5; 6; 7; 8; 9; 10; 11])
              (reach_mount _ _ _)) as (_ & _ & Hfull).
  destruct (Hfull (attempt 1) (attempt <$> [2; 3; 4; 5; 6; 7; 8; 9; 10; 11]))
    as [Hr _]; [reflexivity ..|].
  rewrite Hr. reflexivity.
Defined.


(** * Further properties of the component *)

(** ** Every turn of the event loop *)

Lemma step_turn (w : World) (ev : Event) : Inv w → Turn w ev (step w ev).
Proof.
  intros HI. pose proof (inv_pre _ HI) as HP.
  pose proof (inv_running _ HP) as Hrun.
  destruct ev as [t iso | t | id now rnd | id t t']; simpl.
  - destruct (runningRef (refs w)) eqn:Er.
    + destruct (Qeq_bool (lightsOutTimeRef (refs w)) 0) eqn:Elo.
      * rewrite handleReaction_jump by assumption. constructor; assumption.
      * rewrite handleReaction_timed by assumption.
        rewrite (inv_listener_latency _ HI).
        apply turn_timed; try assumption.
        pose proof (inv_armed _ HP) as Ha.
        destruct (gameState (ui w)); try discriminate; try reflexivity;
          rewrite Ha in Elo; discriminate.
    + unfold handleReaction. rewrite Er, (inv_listener_state _ HI).
      assert (Hc : negb false && (bool_decide (gameState (ui w) = idle)
                                  || bool_decide (gameState (ui w) = result))
                   = true)
        by (destruct (gameState (ui w)); try discriminate; reflexivity).
      rewrite Hc. apply turn_start; eauto.
      apply (inv_listener_lights _ HI). congruence.
  - destruct (tryAgainRendered w) eqn:E; [|constructor].
    apply andb_true_iff in E as [_ E]. apply bool_decide_eq_true in E.
    pose proof (inv_dark _ HP) as Hd. rewrite E in Hrun, Hd.
    apply turn_start; auto. rewrite E. reflexivity.
  - destruct (pendingFrame id w) as [captured|] eqn:E; [|constructor].
    destruct (pendingFrame_inv _ _ _ HP E) as (Hg & -> & _).
    constructor; assumption.
  - destruct (pendingTimer id w) as [[t0|]|] eqn:E; [| |constructor].
    + constructor; [|assumption].
      apply pendingTimer_inv in E as (tm & Hin & _ & Hcb).
      pose proof (proj1 (Forall_forall _ _) (inv_timers _ HP) _ Hin) as Hok.
      unfold timer_ok in Hok. rewrite Hcb in Hok. tauto.
    + constructor; [|assumption]. apply (lightsOut_pending id); assumption.
Qed.

Lemma startGame_ui (c : Closure) (t : Q) (w : World) :
  runningRef (refs w) = false →
  ui (startGame c t w) =
  {| gameState := countdown; activeLights := 0; reactionTime := None;
     results := results (ui w); systemLatency := systemLatency (ui w);
     isCalibrating := isCalibrating (ui w); jumpStartFlag := false |}.
Proof. intros Hr. unfold startGame. rewrite Hr. reflexivity. Qed.

(** X1.  The state only moves along the arrows idle -> countdown ->
    waiting -> reacting -> result -> countdown, with countdown and
    waiting also leading to result; it never returns to idle. *)
Theorem gameState_transitions (w : World) (ev : Event) :
  reachable w →
  allowed (gameState (ui w)) (gameState (ui (step w ev))) = true.
Proof.
  intros Hw. pose proof (reachable_inv _ Hw) as HI.
  pose proof (inv_running _ (inv_pre _ HI)) as Hrun.
  destruct (step_turn w ev HI)
    as [ ev | c t ev Hr Ha _ _ | t iso Hr _ | t iso Hg _ _
       | id now rnd Hg _ | id t0 t t' _ _ | id t t' Hg _ ];
    rewrite ?commit_ui.
  - destruct (gameState (ui w)); reflexivity.
  - rewrite startGame_ui by exact Hr. cbn.
    destruct (gameState (ui w)); try discriminate; reflexivity.
  - rewrite pushResult_ui. cbn. rewrite Hr in Hrun.
    destruct (gameState (ui w)); try discriminate; reflexivity.
  - cbv zeta. rewrite pushResult_ui. cbn. rewrite Hg. reflexivity.
  - rewrite frame_gameState. cbn. rewrite Hg. destruct (_ <? 5); reflexivity.
  - destruct (sampleCb_game t0 t t' (clearTimeout id w)) as [-> _]. cbn.
    destruct (gameState (ui w)); reflexivity.
  - cbn. rewrite Hg. reflexivity.
Qed.

(** ** Rounds and attempts *)

Lemma mount_ui (Number : string → JsNum) (storage : gmap string string)
    (t0 : Q) : ui (mount Number storage t0) = initialUI.
Proof.
  unfold mount, loadBest. simpl.
  destruct (storage !! "best") as [s|]; [destruct (bool_decide _)|];
    reflexivity.
Qed.

Lemma frame_ui_rest (captured : Z) (now rnd : Q) (w : World) :
  reactionTime (ui (frame captured now rnd w)) = reactionTime (ui w) ∧
  jumpStartFlag (ui (frame captured now rnd w)) = jumpStartFlag (ui w) ∧
  systemLatency (ui (frame captured now rnd w)) = systemLatency (ui w).
Proof. unfold frame. destruct (negb _), (_ <? 5); auto. Qed.

Lemma sampleCb_ui_rest (t0 t t' : Q) (w : World) :
  reactionTime (ui (sampleCb t0 t t' w)) = reactionTime (ui w) ∧
  jumpStartFlag (ui (sampleCb t0 t t' w)) = jumpStartFlag (ui w).
Proof. unfold sampleCb. destruct (_ <? 12)%nat; auto. Qed.

Lemma stop_ui (w : World) : ui (stopRunningClean w) = ui w.
Proof. apply stop_fields. Qed.

Lemma calibrated_nonneg (t_out t : Q) (latency : Z) :
  0 ≤ calibrated t_out t latency.
Proof. unfold calibrated. lia. Qed.

(** An event records an attempt exactly when it takes the game into
    [result]; the attempt is then well formed and the panel shows it. *)
Lemma step_records (w : World) (ev : Event) :
  Inv w → panelAgrees w →
  (gameState (ui w) ≠ result ∧ gameState (ui (step w ev)) = result ∧
   ∃ r, wfAttempt r ∧
        results (ui (step w ev)) = take 10 (r :: results (ui w)) ∧
        jumpStart r = jumpStartFlag (ui (step w ev)) ∧
        time r = reactionTime (ui (step w ev)))
  ∨ ((gameState (ui w) = result ∨ gameState (ui (step w ev)) ≠ result) ∧
     results (ui (step w ev)) = results (ui w)).
Proof.
  intros HI Hp. pose proof (inv_running _ (inv_pre _ HI)) as Hrun.
  unfold panelAgrees in Hp.
  destruct (step_turn w ev HI)
    as [ ev | c t ev Hr Ha _ _ | t iso Hr _ | t iso Hg Hr _
       | id now rnd Hg _ | id t0 t t' _ _ | id t t' Hg _ ];
    rewrite ?commit_ui.
  - right. split; [|reflexivity].
    destruct (decide (gameState (ui w) = result)); auto.
  - right. rewrite startGame_ui by exact Hr. cbn. split; [right|]; done.
  - left. rewrite pushResult_ui. cbn. rewrite stop_ui.
    rewrite Hr in Hrun.
    split; [destruct (gameState (ui w)); done|].
    split; [reflexivity|]. eexists. split; [|split; [reflexivity|split]].
    + reflexivity.
    + reflexivity.
    + cbn. destruct (gameState (ui w)); try discriminate;
        destruct Hp as [-> _]; reflexivity.
  - left. cbv zeta. rewrite pushResult_ui. cbn. rewrite stop_ui.
    split; [rewrite Hg; done|]. split; [reflexivity|].
    eexists. split; [|split; [reflexivity|split]].
    + split; [reflexivity | apply calibrated_nonneg].
    + cbn. rewrite Hg in Hp. destruct Hp as [_ ->]. reflexivity.
    + reflexivity.
  - right. rewrite frame_gameState, frame_results. cbn.
    split; [right; destruct (_ <? 5); [rewrite Hg|]; done | reflexivity].
  - right. rewrite sampleCb_results.
    destruct (sampleCb_game t0 t t' (clearTimeout id w)) as [-> _]. cbn.
    split; [|reflexivity].
    destruct (decide (gameState (ui w) = result)); auto.
  - right. cbn. split; [right; done | reflexivity].
Qed.

Lemma panel_step (w : World) (ev : Event) :
  Inv w → panelAgrees w → panelAgrees (step w ev).
Proof.
  intros HI Hp. pose proof (inv_running _ (inv_pre _ HI)) as Hrun.
  destruct (step_records w ev HI Hp)
    as [(_ & Hg' & r & _ & Hres & Hj & Ht) | _].
  { unfold panelAgrees. rewrite Hg', Hres. exists r. auto. }
  unfold panelAgrees in *.
  destruct (step_turn w ev HI)
    as [ ev | c t ev Hr Ha _ _ | t iso Hr _ | t iso Hg Hr _
       | id now rnd Hg _ | id t0 t t' _ _ | id t t' Hg _ ];
    rewrite ?commit_ui.
  - exact Hp.
  - rewrite startGame_ui by exact Hr. cbn. auto.
  - rewrite pushResult_ui. cbn. rewrite stop_ui. eexists.
    split; [reflexivity|]. split; [reflexivity|].
    rewrite Hr in Hrun. cbn.
    destruct (gameState (ui w)); try discriminate;
      destruct Hp as [-> _]; reflexivity.
  - cbv zeta. rewrite pushResult_ui. cbn. rewrite stop_ui. eexists.
    split; [reflexivity|]. rewrite Hg in Hp. destruct Hp as [_ ->]. auto.
  - rewrite frame_gameState.
    destruct (frame_ui_rest 0 now rnd (cancelAnimationFrame id w))
      as (-> & -> & _). cbn. rewrite Hg in Hp.
    destruct (_ <? 5); [rewrite Hg|]; exact Hp.
  - destruct (sampleCb_game t0 t t' (clearTimeout id w)) as [-> _].
    destruct (sampleCb_ui_rest t0 t t' (clearTimeout id w)) as [-> ->].
    rewrite sampleCb_results. exact Hp.
  - cbn. rewrite Hg in Hp. exact Hp.
Qed.

Lemma panel_reachable (w : World) : reachable w → panelAgrees w.
Proof.
  induction 1 as [N st t0 | w ev Hw IH].
  - unfold panelAgrees. rewrite mount_ui. cbn. auto.
  - apply panel_step; auto using reachable_inv.
Qed.

Lemma wfAttempt_reachable (w : World) :
  reachable w → Forall wfAttempt (results (ui w)).
Proof.
  induction 1 as [N st t0 | w ev Hw IH].
  - rewrite mount_ui. constructor.
  - destruct (step_records w ev (reachable_inv _ Hw) (panel_reachable _ Hw))
      as [(_ & _ & r & Hwf & -> & _) | [_ ->]]; [|exact IH].
    apply Forall_take. constructor; assumption.
Qed.

(** X2.  A reaction signal outside a round starts one and records
    nothing: the state is countdown with no light on, the panel is
    cleared, the history and the best time are untouched, the anchor is
    the clock value read, and one animation-frame request is pending.  A
    click on Try Again, when the button is rendered, gives the same
    world. *)
Theorem signal_outside_round_starts_one (w : World) (t : Q) (iso : string) :
  reachable w →
  gameState (ui w) = idle ∨ gameState (ui w) = result →
  let w' := step w (EvReaction t iso) in
  ui w' =
    {| gameState := countdown; activeLights := 0; reactionTime := None;
       results := results (ui w); systemLatency := systemLatency (ui w);
       isCalibrating := isCalibrating (ui w); jumpStartFlag := false |} ∧
  refs w' =
    {| rafRef := Some (nextRaf (host w)); timeoutRef := timeoutRef (refs w);
       lightsStartRef := t; lightsOutTimeRef := 0%Q; runningRef := true;
       bestRef := bestRef (refs w) |} ∧
  rafs (host w') = [(nextRaf (host w), 0)] ∧
  timers (host w') = timers (host w) ∧
  localStorage (host w') = localStorage (host w) ∧
  (tryAgainRendered w = true → step w (EvTryAgain t) = w').
Proof.
  intros Hw Hg w'. pose proof (reachable_inv _ Hw) as HI.
  pose proof (inv_pre _ HI) as HP.
  pose proof (inv_running _ HP) as Hrun.
  pose proof (inv_rafs _ HP) as Hrafs.
  pose proof (inv_dark _ HP) as Hd.
  assert (Hr : runningRef (refs w) = false)
    by (destruct Hg as [E|E]; rewrite E in Hrun; exact Hrun).
  assert (Hnil : rafs (host w) = [])
    by (destruct Hg as [E|E]; rewrite E in Hrafs; exact Hrafs).
  assert (Hl : c_activeLights (listener w) = 0).
  { apply (inv_listener_lights _ HI).
    destruct Hg as [E|E]; rewrite E; reflexivity. }
  assert (Hal : activeLights (ui w) = 0)
    by (destruct Hg as [E|E]; rewrite E in Hd; exact Hd).
  assert (Hstep : w' = commit (startGame (listener w) t w)).
  { subst w'. simpl. unfold handleReaction.
    rewrite Hr, (inv_listener_state _ HI).
    destruct Hg as [E|E]; rewrite E; reflexivity. }
  rewrite Hstep, commit_ui, commit_refs, commit_host.
  split; [apply startGame_ui; exact Hr|].
  unfold startGame. rewrite Hr, Hl. cbn. rewrite Hnil.
  repeat split; try reflexivity.
  intros Hb. simpl. rewrite Hb. f_equal.
  unfold startGame. rewrite Hr. cbn. rewrite Hal. reflexivity.
Qed.

(** X3.  An attempt is recorded exactly when an event takes the game
    into [result], and then exactly one: every other event leaves the
    history as it is. *)
Theorem one_attempt_per_round (w : World) (ev : Event) :
  reachable w →
  let w' := step w ev in
  (gameState (ui w) ≠ result ∧ gameState (ui w') = result ∧
   ∃ r, results (ui w') = take 10 (r :: results (ui w)))
  ∨ ((gameState (ui w) = result ∨ gameState (ui w') ≠ result) ∧
     results (ui w') = results (ui w)).
Proof.
  intros Hw w'.
  destruct (step_records w ev (reachable_inv _ Hw) (panel_reachable _ Hw))
    as [(H1 & H2 & r & _ & Hres & _) | H]; [left | right; exact H].
  split; [exact H1|]. split; [exact H2|]. exists r. exact Hres.
Qed.

(** X4.  Every attempt in the history is a jump start without a time or
    a timed attempt with a non-negative integer time. *)
Theorem attempts_well_formed (w : World) (r : Result) :
  reachable w → r ∈ results (ui w) →
  (jumpStart r = true ∧ time r = None) ∨
  (jumpStart r = false ∧ ∃ t, time r = Some t ∧ 0 ≤ t).
Proof.
  intros Hw Hin.
  pose proof (proj1 (Forall_forall _ _) (wfAttempt_reachable w Hw) r Hin) as H.
  unfold wfAttempt in H. destruct (time r) as [t|].
  - right. destruct H. eauto.
  - left. auto.
Qed.

(** X5.  The result panel agrees with the history: from the start of a
    round until its end [reactionTime] is null and the jump-start flag
    is off, and in [result] both are those of the newest attempt. *)
Theorem panel_shows_newest_attempt (w : World) :
  reachable w →
  match gameState (ui w) with
  | idle =>
      results (ui w) = [] ∧
      reactionTime (ui w) = None ∧ jumpStartFlag (ui w) = false
  | countdown | waiting | reacting =>
      reactionTime (ui w) = None ∧ jumpStartFlag (ui w) = false
  | result =>
      ∃ r, head (results (ui w)) = Some r ∧
           jumpStart r = jumpStartFlag (ui w) ∧
           time r = reactionTime (ui w)
  end.
Proof. intros Hw. apply (panel_reachable w Hw). Qed.

(** ** The lights *)

Lemma toLight_le5 (t0 now : Q) : toLight t0 now ≤ 5.
Proof. unfold toLight. lia. Qed.

Lemma lights_step (w : World) (ev : Event) :
  Inv w → lightsBounded w → lightsBounded (step w ev).
Proof.
  intros HI [Hle H5]. unfold lightsBounded.
  destruct (step_turn w ev HI)
    as [ ev | c t ev Hr Ha _ _ | t iso Hr _ | t iso Hg Hr _
       | id now rnd Hg _ | id t0 t t' _ _ | id t t' Hg _ ];
    rewrite ?commit_ui.
  - auto.
  - rewrite startGame_ui by exact Hr. cbn. split; [lia | discriminate].
  - rewrite pushResult_ui. cbn. split; [lia | discriminate].
  - cbv zeta. rewrite pushResult_ui. cbn. rewrite stop_ui.
    split; [exact Hle | discriminate].
  - rewrite frame_gameState, frame_activeLights. cbn.
    pose proof (toLight_le5 (lightsStartRef (refs w)) now) as H.
    destruct (_ <? 5) eqn:E5.
    + rewrite Hg. split; [destruct (_ =? 0); lia | discriminate].
    + apply Z.ltb_ge in E5.
      destruct (_ =? 0) eqn:E0; [apply Z.eqb_eq in E0; lia|].
      split; [lia | intros _; lia].
  - destruct (sampleCb_game t0 t t' (clearTimeout id w)) as [-> ->]. auto.
  - cbn. split; [lia | discriminate].
Qed.

Lemma lights_reachable (w : World) : reachable w → lightsBounded w.
Proof.
  induction 1 as [N st t0 | w ev Hw IH].
  - unfold lightsBounded. rewrite mount_ui. cbn. split; [lia | discriminate].
  - apply lights_step; auto using reachable_inv.
Qed.

(** X6.  Never more than five lights show.  While waiting all five
    lamps are red; in idle, reacting and result all five are dark. *)
Theorem lamps_by_state (w : World) :
  reachable w →
  activeLights (ui w) ≤ 5 ∧
  match gameState (ui w) with
  | countdown => True
  | waiting =>
      activeLights (ui w) = 5 ∧ lamps w = [true; true; true; true; true]
  | idle | reacting | result =>
      activeLights (ui w) = 0 ∧
      lamps w = [false; false; false; false; false]
  end.
Proof.
  intros Hw. destruct (lights_reachable w Hw) as [Hle H5].
  pose proof (inv_dark _ (inv_pre _ (reachable_inv _ Hw))) as Hd.
  split; [exact Hle|]. unfold lamps.
  destruct (gameState (ui w)); try exact I;
    try (rewrite Hd; split; reflexivity).
  rewrite (H5 eq_refl). split; reflexivity.
Qed.

(** What [frame] does to the pending callbacks when no other frame
    request is pending. *)
Lemma frame_effect (now rnd : Q) (w : World) :
  rafs (host w) = [] →
  let w' := frame 0 now rnd w in
  refs w' = (if toLight (lightsStartRef (refs w)) now <? 5
             then set_rafRef (Some (nextRaf (host w))) w
             else set_timeoutRef (Some (nextTimer (host w))) w).(refs) ∧
  isCalibrating (ui w') = isCalibrating (ui w) ∧
  if toLight (lightsStartRef (refs w)) now <? 5 then
    gameState (ui w') = gameState (ui w) ∧
    rafs (host w') = [(nextRaf (host w), 0)] ∧
    timers (host w') = timers (host w) ∧
    nextTimer (host w') = nextTimer (host w)
  else
    gameState (ui w') = waiting ∧
    rafs (host w') = [] ∧
    timers (host w') =
      timers (host w)
      ++ [ {| t_id := nextTimer (host w);
              t_delay := fadd 1000 (fmul rnd 4000); t_cb := LightsOutCb |} ] ∧
    nextTimer (host w') = S (nextTimer (host w)).
Proof.
  intros Hnil w'. subst w'. unfold frame.
  destruct_world w. simpl in *. subst.
  destruct (negb _), (_ <? 5); simpl; repeat split; reflexivity.
Qed.

(** The delay [1000 + Math.random() * 4000] for a random number in
    [0, 1): the product and the sum are rounded, and stay between the
    doubles 1000 and 5000. *)
Lemma delay_range (rnd : Q) :
  (0 <= rnd)%Q → (rnd < 1)%Q →
  (1000 <= fadd 1000 (fmul rnd 4000))%Q ∧
  (fadd 1000 (fmul rnd 4000) <= 5000)%Q.
Proof.
  intros H0 H1. unfold fadd, fmul.
  assert (E0 : (roundDouble 0 == 0)%Q) by reflexivity.
  assert (E4 : (roundDouble 4000 == 4000)%Q) by (vm_compute; reflexivity).
  assert (E1 : (roundDouble 1000 == 1000)%Q) by (vm_compute; reflexivity).
  assert (E5 : (roundDouble 5000 == 5000)%Q) by (vm_compute; reflexivity).
  pose proof (roundDouble_mono 0 (rnd * 4000) ltac:(lra)) as Hlo.
  pose proof (roundDouble_mono (rnd * 4000) 4000 ltac:(lra)) as Hhi.
  rewrite E0 in Hlo. rewrite E4 in Hhi.
  split.
  - rewrite <- E1 at 1. apply roundDouble_mono. lra.
  - rewrite <- E5. apply roundDouble_mono. lra.
Qed.

(** The upper end is reached: for the largest double below 1 the sum
    [1000 + rnd * 4000] rounds to 5000. *)
Lemma delay_reaches_5000 :
  let rnd := (9007199254740991 # 9007199254740992)%Q in
  (rnd < 1)%Q ∧ (roundDouble rnd == rnd)%Q ∧
  (fadd 1000 (fmul rnd 4000) == 5000)%Q.
Proof. vm_compute. repeat split; reflexivity. Qed.

(** X7.  A tick that computes fewer than five lights keeps the
    countdown going and requests exactly one more frame; a tick that
    computes five ends it: the state is waiting, no frame is requested,
    and one lights-out timer is started whose delay, for a random
    number in [0, 1), lies between 1000 and 5000 ms, both included. *)
Theorem tick_continues_or_arms (w : World) (id : nat) (now rnd : Q) :
  reachable w →
  is_Some (pendingFrame id w) →
  (0 <= rnd)%Q → (rnd < 1)%Q →
  let w' := step w (EvFrame id now rnd) in
  let k := toLight (lightsStartRef (refs w)) now in
  (k < 5 ∧
   gameState (ui w') = countdown ∧
   rafs (host w') = [(nextRaf (host w), 0)] ∧
   rafRef (refs w') = Some (nextRaf (host w)) ∧
   timeoutRef (refs w') = timeoutRef (refs w) ∧
   timers (host w') = timers (host w))
  ∨
  (k = 5 ∧
   gameState (ui w') = waiting ∧
   rafs (host w') = [] ∧
   timeoutRef (refs w') = Some (nextTimer (host w)) ∧
   ∃ delay,
     (1000 <= delay)%Q ∧ (delay <= 5000)%Q ∧
     timers (host w') =
       timers (host w)
       ++ [ {| t_id := nextTimer (host w); t_delay := delay;
               t_cb := LightsOutCb |} ]).
Proof.
  intros Hw [captured E] Hr0 Hr1 w' k.
  pose proof (inv_pre _ (reachable_inv _ Hw)) as HP.
  destruct (pendingFrame_inv _ _ _ HP E) as (Hg & -> & _ & _ & Hnil).
  destruct (frame_effect now rnd (cancelAnimationFrame id w) Hnil)
    as (Hrefs & _ & Heff).
  pose proof (toLight_le5 (lightsStartRef (refs w)) now) as Hle.
  subst w'. simpl. rewrite E, commit_ui, commit_refs, commit_host, Hrefs.
  change (lightsStartRef (refs (cancelAnimationFrame id w)))
    with (lightsStartRef (refs w)) in *.
  fold k in Heff, Hle |- *.
  destruct (k <? 5) eqn:E5.
  - left. apply Z.ltb_lt in E5. destruct Heff as (H1 & H2 & H3 & _).
    split; [exact E5|]. rewrite H1, H2, H3. auto.
  - right. apply Z.ltb_ge in E5. destruct Heff as (H1 & H2 & H3 & _).
    split; [lia|]. rewrite H1, H2, H3. repeat split.
    exists (fadd 1000 (fmul rnd 4000)).
    destruct (delay_range rnd Hr0 Hr1) as [Hlo Hhi]. repeat split; assumption.
Qed.

(** ** The pending callbacks *)

Lemma startGame_timers (c : Closure) (t : Q) (w : World) :
  timers (host (startGame c t w)) = timers (host w) ∧
  nextTimer (host (startGame c t w)) = nextTimer (host w) ∧
  timeoutRef (refs (startGame c t w)) = timeoutRef (refs w) ∧
  isCalibrating (ui (startGame c t w)) = isCalibrating (ui w) ∧
  systemLatency (ui (startGame c t w)) = systemLatency (ui w).
Proof. unfold startGame. destruct (runningRef (refs w)); auto. Qed.

Lemma pushResult_host (r : Result) (w : World) :
  timers (host (pushResult r w)) = timers (host w) ∧
  rafs (host (pushResult r w)) = rafs (host w) ∧
  nextTimer (host (pushResult r w)) = nextTimer (host w) ∧
  timeoutRef (refs (pushResult r w)) = timeoutRef (refs w).
Proof.
  unfold pushResult.
  destruct (negb (jumpStart r)); [destruct (time r) as [t|]|];
    [destruct (ltNum t _)| |]; auto.
Qed.

Lemma stop_timers_eq (w : World) :
  timers (host (stopRunningClean w)) =
  match handle_truthy (timeoutRef (refs w)) with
  | Some k => filter (λ t, t_id t ≠ k) (timers (host w))
  | None => timers (host w)
  end.
Proof.
  destruct_world w. unfold stopRunningClean. simpl.
  destruct rafRef0 as [[|?]|], timeoutRef0 as [[|?]|]; reflexivity.
Qed.

Lemma sampleCb_effect (t0 t t' : Q) (w : World) :
  let w' := sampleCb t0 t t' w in
  count (calib w') = S (count (calib w)) ∧
  if (S (count (calib w)) <? 12)%nat then
    timers (host w') =
      timers (host w)
      ++ [ {| t_id := nextTimer (host w); t_delay := 0%Q;
              t_cb := SampleCb t' |} ] ∧
    nextTimer (host w') = S (nextTimer (host w)) ∧
    isCalibrating (ui w') = isCalibrating (ui w) ∧
    systemLatency (ui w') = systemLatency (ui w) ∧
    samples (calib w') = samples (calib w) ++ [fsub t t0]
  else
    timers (host w') = timers (host w) ∧
    nextTimer (host w') = nextTimer (host w) ∧
    isCalibrating (ui w') = false ∧
    samples (calib w') = sortNumbers (samples (calib w) ++ [fsub t t0]).
Proof.
  intros w'. subst w'. unfold sampleCb.
  cbn [calib with_calib count samples].
  destruct (S (count (calib w)) <? 12)%nat; repeat split; reflexivity.
Qed.

(** [TimersInv] after a turn that leaves the timers alone. *)
Lemma TimersInv_same (w w' : World) :
  TimersInv w →
  timers (host w') = timers (host w) →
  nextTimer (host w') = nextTimer (host w) →
  timeoutRef (refs w') = None ∨ timeoutRef (refs w') = timeoutRef (refs w) →
  isCalibrating (ui w') = isCalibrating (ui w) →
  TimersInv w'.
Proof.
  intros [Hids Href Hsam Hlo Hpend] Ht Hn Hr Hc.
  split; rewrite ?Ht, ?Hn, ?Hc; try assumption.
  - intros j Hj. destruct Hr as [Hr|Hr]; rewrite Hr in Hj;
      [discriminate | auto].
  - destruct Hr as [-> | ->]; [|exact Hsam].
    eapply Forall_impl; [exact Hsam|]. cbn. intros; discriminate.
Qed.

(** ... after [clearTimeout k], when [k] is no calibration timer. *)
Lemma TimersInv_cleared (w w' : World) (k : nat) :
  TimersInv w →
  Forall (λ t, isSample t → t_id t ≠ k) (timers (host w)) →
  timers (host w') = filter (λ t, t_id t ≠ k) (timers (host w)) →
  nextTimer (host w') = nextTimer (host w) →
  timeoutRef (refs w') = None ∨ timeoutRef (refs w') = timeoutRef (refs w) →
  isCalibrating (ui w') = isCalibrating (ui w) →
  TimersInv w'.
Proof.
  intros [Hids Href Hsam Hlo Hpend] Hk Ht Hn Hr Hc.
  split; rewrite ?Ht, ?Hn, ?Hc.
  - apply Forall_filter_keep. exact Hids.
  - intros j Hj. destruct Hr as [Hr|Hr]; rewrite Hr in Hj;
      [discriminate | auto].
  - apply Forall_filter_keep.
    destruct Hr as [-> | ->]; [|exact Hsam].
    eapply Forall_impl; [exact Hsam|]. cbn. intros; discriminate.
  - etransitivity; [apply length_filter_filter | exact Hlo].
  - intros Hcal. destruct (Hpend Hcal) as (tm & Hin & Hs). exists tm.
    split; [|exact Hs]. apply list_elem_of_filter. split; [|exact Hin].
    rewrite Forall_forall in Hk. exact (Hk tm Hin Hs).
Qed.

(** ... after [setTimeout] for the lights-out callback in countdown. *)
Lemma TimersInv_armed (w w' : World) (d : Q) :
  TimersInv w →
  Forall isSample (timers (host w)) →
  timers (host w') =
    timers (host w)
    ++ [ {| t_id := nextTimer (host w); t_delay := d; t_cb := LightsOutCb |} ] →
  nextTimer (host w') = S (nextTimer (host w)) →
  timeoutRef (refs w') = Some (nextTimer (host w)) →
  isCalibrating (ui w') = isCalibrating (ui w) →
  TimersInv w'.
Proof.
  intros [Hids Href Hsam Hlo Hpend] Hall Ht Hn Hr Hc.
  split; rewrite ?Ht, ?Hn, ?Hr, ?Hc.
  - apply Forall_app. split.
    + eapply Forall_impl; [exact Hids|]. cbn. lia.
    + apply Forall_singleton. cbn. lia.
  - intros j Hj. injection Hj as <-. lia.
  - apply Forall_app. split.
    + rewrite Forall_forall in *. intros tm Hin _ E. injection E as E.
      specialize (Hids tm Hin). cbn in Hids. lia.
    + apply Forall_singleton. unfold isSample. cbn. tauto.
  - rewrite filter_app, length_app.
    assert (filter (λ t, ¬ isSample t) (timers (host w)) = []) as ->.
    { destruct (filter _ (timers (host w))) as [|tm l] eqn:E; [reflexivity|].
      assert (Hin : tm ∈ filter (λ t, ¬ isSample t) (timers (host w)))
        by (rewrite E; left).
      apply list_elem_of_filter in Hin as [Hn' Hin].
      rewrite Forall_forall in Hall. destruct (Hn' (Hall tm Hin)). }
    match goal with |- (_ + length (filter ?P ?l) ≤ 1)%nat =>
      pose proof (length_filter P l) as Hl end.
    change (length [] + ?n)%nat with n. exact Hl.
  - intros Hcal. destruct (Hpend Hcal) as (tm & Hin & Hs). exists tm.
    split; [|exact Hs]. apply elem_of_app. left. exact Hin.
Qed.

(** ... after the sample callback with handle [k] ran. *)
Lemma TimersInv_sampled (w w' : World) (k : nat) (t0 : Q) :
  TimersInv w →
  timeoutRef (refs w') = timeoutRef (refs w) →
  (timers (host w') =
     filter (λ t, t_id t ≠ k) (timers (host w))
     ++ [ {| t_id := nextTimer (host w); t_delay := 0%Q;
             t_cb := SampleCb t0 |} ] ∧
   nextTimer (host w') = S (nextTimer (host w)))
  ∨ (timers (host w') = filter (λ t, t_id t ≠ k) (timers (host w)) ∧
     nextTimer (host w') = nextTimer (host w) ∧
     isCalibrating (ui w') = false) →
  TimersInv w'.
Proof.
  intros [Hids Href Hsam Hlo Hpend] Hr [[Ht Hn] | (Ht & Hn & Hc)];
    split; rewrite ?Ht, ?Hn, ?Hr, ?Hc.
  - apply Forall_app. split.
    + apply Forall_filter_keep.
      eapply Forall_impl; [exact Hids|]. cbn. lia.
    + apply Forall_singleton. cbn. lia.
  - intros j Hj. specialize (Href j Hj). lia.
  - apply Forall_app. split.
    + apply Forall_filter_keep. exact Hsam.
    + apply Forall_singleton. cbn. intros _ E.
      specialize (Href _ E). lia.
  - rewrite filter_app, length_app.
    rewrite filter_cons, decide_False by (unfold isSample; cbn; tauto).
    rewrite filter_nil, Nat.add_0_r.
    etransitivity; [apply length_filter_filter | exact Hlo].
  - intros _. eexists. split; [apply elem_of_app; right; left|].
    unfold isSample. cbn. exact I.
  - apply Forall_filter_keep. exact Hids.
  - exact Href.
  - apply Forall_filter_keep. exact Hsam.
  - etransitivity; [apply length_filter_filter | exact Hlo].
  - discriminate.
Qed.

(** ... after [stopRunningClean]. *)
Lemma TimersInv_stopped (w w' : World) :
  TimersInv w →
  timers (host w') = timers (host (stopRunningClean w)) →
  nextTimer (host w') = nextTimer (host w) →
  timeoutRef (refs w') = None →
  isCalibrating (ui w') = isCalibrating (ui w) →
  TimersInv w'.
Proof.
  intros HT Ht Hn Hr Hc. rewrite stop_timers_eq in Ht.
  destruct (timeoutRef (refs w)) as [[|k]|] eqn:Ek; cbn in Ht.
  - apply (TimersInv_same w); auto.
  - apply (TimersInv_cleared w w' (S k)); auto.
    eapply Forall_impl; [exact (ti_sample _ HT)|]. cbn.
    intros tm Hs Hsam E. apply (Hs Hsam). congruence.
  - apply (TimersInv_same w); auto.
Qed.

Lemma timers_step (w : World) (ev : Event) :
  Inv w → TimersInv w → TimersInv (step w ev).
Proof.
  intros HI HT. pose proof (inv_pre _ HI) as HP.
  pose proof (inv_timers _ HP) as Hok.
  destruct (step_turn w ev HI)
    as [ ev | c t ev Hr Ha _ _ | t iso Hr _ | t iso Hg Hr _
       | id now rnd Hg Epf | id t0 t t' Hcal Ept | id t t' Hg Ept ].
  - exact HT.
  - destruct (startGame_timers c t w) as (Ht & Hn & Hre & Hc & _).
    apply (TimersInv_same w); rewrite ?commit_ui, ?commit_refs, ?commit_host;
      auto.
  - destruct (stop_fields w) as (Hu & _ & _ & Hrefs & _ & Hnt & _).
    match goal with |- TimersInv (commit (pushResult ?r ?X)) =>
      destruct (pushResult_host r X) as (Ht & _ & Hn & Hre) end.
    apply (TimersInv_stopped w); auto;
      rewrite ?commit_ui, ?commit_refs, ?commit_host, ?Ht, ?Hn, ?Hre,
        ?pushResult_ui; cbn; rewrite ?Hrefs, ?Hu; auto.
  - destruct (stop_fields w) as (Hu & _ & _ & Hrefs & _ & Hnt & _).
    cbv zeta.
    match goal with |- TimersInv (commit (pushResult ?r ?X)) =>
      destruct (pushResult_host r X) as (Ht & _ & Hn & Hre) end.
    apply (TimersInv_stopped w); auto;
      rewrite ?commit_ui, ?commit_refs, ?commit_host, ?Ht, ?Hn, ?Hre,
        ?pushResult_ui; cbn; rewrite ?Hrefs, ?Hu; auto.
  - destruct (pendingFrame_inv _ _ _ HP Epf) as (_ & _ & _ & _ & Hnil).
    destruct (frame_effect now rnd (cancelAnimationFrame id w) Hnil)
      as (Hrefs & Hc & Heff).
    destruct (_ <? 5).
    + destruct Heff as (_ & _ & Ht & Hn).
      apply (TimersInv_same w);
        rewrite ?commit_ui, ?commit_refs, ?commit_host, ?Hrefs; auto.
    + destruct Heff as (_ & _ & Ht & Hn).
      apply (TimersInv_armed w _ (fadd 1000 (fmul rnd 4000)));
        rewrite ?commit_ui, ?commit_refs, ?commit_host, ?Hrefs; auto.
      eapply Forall_impl; [exact Hok|]. cbn. intros tm Htm.
      apply (timer_ok_not_waiting w tm Htm). rewrite Hg. discriminate.
  - destruct (sampleCb_effect t0 t t' (clearTimeout id w)) as (_ & Heff).
    apply (TimersInv_sampled w _ id t');
      rewrite ?commit_ui, ?commit_refs, ?commit_host, ?sampleCb_refs; auto.
    destruct (_ <? 12)%nat; [left | right]; tauto.
  - apply pendingTimer_inv in Ept as (tm & Hin & Hid & Hcb).
    pose proof (proj1 (Forall_forall _ _) Hok _ Hin) as Htm.
    unfold timer_ok in Htm. rewrite Hcb, Hid in Htm.
    destruct Htm as (_ & _ & Href).
    apply (TimersInv_cleared w _ id);
      rewrite ?commit_ui, ?commit_refs, ?commit_host; auto.
    eapply Forall_impl; [exact (ti_sample _ HT)|]. cbn.
    intros tm' Hs Hsam E. apply (Hs Hsam). congruence.
Qed.

Lemma timers_reachable (w : World) : reachable w → TimersInv w.
Proof.
  induction 1 as [N st t0 | w ev Hw IH].
  - unfold mount, loadBest. cbn [initialWorld host localStorage].
    destruct (st !! "best") as [s|]; [destruct (bool_decide _)|];
      (split;
       [ apply Forall_singleton; cbn; lia
       | discriminate
       | apply Forall_singleton; cbn; discriminate
       | etransitivity; [apply length_filter | cbn; lia]
       | intros _; eexists; split; [left | exact I] ]).
  - apply timers_step; auto using reachable_inv.
Qed.

(** X8.  At any time at most one animation-frame request, one
    lights-out timer and one calibration timer are pending; outside
    countdown no frame is requested and outside waiting no lights-out
    timer exists. *)
Theorem pending_callbacks_bounded (w : World) :
  reachable w →
  (length (rafs (host w)) ≤ 1)%nat ∧
  (length (filter isSample (timers (host w))) ≤ 1)%nat ∧
  (length (filter (λ t, ¬ isSample t) (timers (host w))) ≤ 1)%nat ∧
  (length (timers (host w)) ≤ 2)%nat ∧
  (gameState (ui w) ≠ countdown → rafs (host w) = []) ∧
  (gameState (ui w) ≠ waiting → Forall isSample (timers (host w))).
Proof.
  intros Hw. pose proof (inv_pre _ (reachable_inv _ Hw)) as HP.
  pose proof (timers_reachable w Hw) as HT.
  pose proof (inv_rafs _ HP) as Hr.
  pose proof (inv_one_sample _ HP) as H1. pose proof (ti_one_lo _ HT) as H2.
  assert (Hraf : gameState (ui w) ≠ countdown → rafs (host w) = [])
    by (destruct (gameState (ui w)); congruence).
  split; [|split; [exact H1|split; [exact H2|split; [|split; [exact Hraf|]]]]].
  - destruct (decide (gameState (ui w) = countdown)) as [E|E].
    + rewrite E in Hr. destruct Hr as (id & -> & _). cbn. lia.
    + rewrite (Hraf E). cbn. lia.
  - rewrite <- (Permutation_length
                  (filter_app_complement isSample (timers (host w)))).
    rewrite length_app. lia.
  - intros Hg. eapply Forall_impl; [exact (inv_timers _ HP)|]. cbn.
    intros tm Htm. exact (timer_ok_not_waiting w tm Htm Hg).
Qed.

(** ** Calibration runs once *)

Lemma step_calibration (w : World) (ev : Event) :
  Inv w →
  (isCalibrating (ui (step w ev)) = isCalibrating (ui w) ∧
   systemLatency (ui (step w ev)) = systemLatency (ui w))
  ∨ (isCalibrating (ui w) = true ∧ isCalibrating (ui (step w ev)) = false).
Proof.
  intros HI.
  destruct (step_turn w ev HI)
    as [ ev | c t ev Hr Ha _ _ | t iso Hr _ | t iso Hg Hr _
       | id now rnd Hg Epf | id t0 t t' Hcal Ept | id t t' Hg Ept ];
    rewrite ?commit_ui.
  - left. auto.
  - left. destruct (startGame_timers c t w) as (_ & _ & _ & -> & ->). auto.
  - left. rewrite pushResult_ui. cbn. rewrite stop_ui. auto.
  - left. cbv zeta. rewrite pushResult_ui. cbn. rewrite stop_ui. auto.
  - left. rewrite frame_isCalibrating.
    destruct (frame_ui_rest 0 now rnd (cancelAnimationFrame id w))
      as (_ & _ & ->). auto.
  - destruct (sampleCb_effect t0 t t' (clearTimeout id w)) as (_ & Heff).
    destruct (_ <? 12)%nat.
    + left. destruct Heff as (_ & _ & -> & -> & _). auto.
    + right. tauto.
  - left. auto.
Qed.

Lemma latency_reachable (w : World) :
  reachable w → isCalibrating (ui w) = true → systemLatency (ui w) = 0.
Proof.
  induction 1 as [N st t0 | w ev Hw IH].
  - rewrite mount_ui. reflexivity.
  - destruct (step_calibration w ev (reachable_inv _ Hw))
      as [[-> ->] | [_ ->]]; [exact IH | discriminate].
Qed.

Lemma step_calib_frame (w : World) (ev : Event) :
  Inv w → isCalibrating (ui w) = false → calib (step w ev) = calib w.
Proof.
  intros HI Hc.
  destruct (step_turn w ev HI)
    as [ ev | c t ev Hr Ha _ _ | t iso Hr _ | t iso Hg Hr _
       | id now rnd Hg Epf | id t0 t t' Hcal Ept | id t t' Hg Ept ];
    rewrite ?commit_calib; try reflexivity.
  - unfold startGame. rewrite Hr. reflexivity.
  - destruct (stop_fields w) as (_ & Hcb & _).
    unfold pushResult. cbn. exact Hcb.
  - destruct (stop_fields w) as (_ & Hcb & _). cbv zeta.
    unfold pushResult. cbn [jumpStart time negb].
    destruct (ltNum _ _); cbn; exact Hcb.
  - unfold frame. destruct (negb _), (_ <? 5); reflexivity.
  - congruence.
Qed.

(** X9.  The latency compensation is 0 until calibration has finished;
    once it has, no event changes it, restarts calibration or touches
    the collected samples. *)
Theorem calibration_runs_once (w : World) (ev : Event) :
  reachable w →
  (isCalibrating (ui w) = true → systemLatency (ui w) = 0) ∧
  (isCalibrating (ui w) = false →
   isCalibrating (ui (step w ev)) = false ∧
   systemLatency (ui (step w ev)) = systemLatency (ui w) ∧
   calib (step w ev) = calib w).
Proof.
  intros Hw. pose proof (reachable_inv _ Hw) as HI.
  split; [apply latency_reachable; exact Hw|]. intros Hc.
  destruct (step_calibration w ev HI) as [[H1 H2] | [H _]]; [|congruence].
  split; [congruence|]. split; [exact H2|].
  apply step_calib_frame; assumption.
Qed.

Lemma sample_pending (w : World) :
  Inv w → TimersInv w → isCalibrating (ui w) = true →
  ∃ id t0, pendingTimer id w = Some (SampleCb t0).
Proof.
  intros HI HT Hc. pose proof (inv_timers _ (inv_pre _ HI)) as Hok.
  destruct (ti_pending _ HT Hc) as (tm & Hin & Hs).
  exists (t_id tm). unfold pendingTimer.
  destruct (filter (λ t, t_id t = t_id tm) (timers (host w))) as [|h l] eqn:E.
  - exfalso. eapply (filter_nil_not_elem_of _ _ tm E); [reflexivity | exact Hin].
  - assert (Hh : h ∈ filter (λ t, t_id t = t_id tm) (timers (host w)))
      by (rewrite E; left).
    apply list_elem_of_filter in Hh as [Hid Hh]. cbn.
    pose proof (proj1 (Forall_forall _ _) Hok _ Hh) as Hhok.
    pose proof (proj1 (Forall_forall _ _) (ti_sample _ HT) _ Hin Hs) as Hne.
    unfold timer_ok in Hhok. destruct (t_cb h) as [t0|].
    + exists t0. reflexivity.
    + exfalso. apply Hne. destruct Hhok as (_ & _ & ->). congruence.
Qed.

(** X10.  Calibration cannot be cancelled or stall: while calibrating a
    sample callback is always pending, whatever rounds were played in
    the meantime; delivering it takes one more sample and leaves the
    game state alone, and calibration ends with the twelfth. *)
Theorem calibration_callback_pending (w : World) :
  reachable w →
  isCalibrating (ui w) = true →
  (count (calib w) < 12)%nat ∧
  ∃ id t0,
    pendingTimer id w = Some (SampleCb t0) ∧
    ∀ t t',
      let w' := step w (EvTimeout id t t') in
      count (calib w') = S (count (calib w)) ∧
      gameState (ui w') = gameState (ui w) ∧
      (isCalibrating (ui w') = false ↔ count (calib w) = 11%nat).
Proof.
  intros Hw Hc. pose proof (reachable_inv _ Hw) as HI.
  destruct (inv_count _ (inv_pre _ HI)) as [_ Hcnt]. rewrite Hc in Hcnt.
  split; [exact Hcnt|].
  destruct (sample_pending w HI (timers_reachable w Hw) Hc) as (id & t0 & E).
  exists id, t0. split; [exact E|]. intros t t' w'. subst w'. simpl.
  rewrite E, commit_ui, commit_calib.
  destruct (sampleCb_effect t0 t t' (clearTimeout id w)) as (Hn & Heff).
  destruct (sampleCb_game t0 t t' (clearTimeout id w)) as [Hg _].
  split; [exact Hn|]. split; [exact Hg|].
  change (count (calib (clearTimeout id w))) with (count (calib w)) in Heff.
  destruct (S (count (calib w)) <? 12)%nat eqn:E12.
  - apply Nat.ltb_lt in E12. destruct Heff as (_ & _ & -> & _).
    cbn. rewrite Hc. split; [discriminate | lia].
  - apply Nat.ltb_ge in E12. destruct Heff as (_ & _ & -> & _).
    split; [lia | reflexivity].
Qed.

(** ** The best time and the storage *)

Lemma frame_best (captured : Z) (now rnd : Q) (w : World) :
  bestRef (refs (frame captured now rnd w)) = bestRef (refs w) ∧
  localStorage (host (frame captured now rnd w)) = localStorage (host w).
Proof. unfold frame. destruct (negb _), (_ <? 5); auto. Qed.

Lemma sampleCb_storage (t0 t t' : Q) (w : World) :
  localStorage (host (sampleCb t0 t t' w)) = localStorage (host w).
Proof. unfold sampleCb. destruct (_ <? 12)%nat; reflexivity. Qed.

Lemma startGame_best (c : Closure) (t : Q) (w : World) :
  bestRef (refs (startGame c t w)) = bestRef (refs w) ∧
  localStorage (host (startGame c t w)) = localStorage (host w).
Proof. unfold startGame. destruct (runningRef (refs w)); auto. Qed.

(** An event leaves the best time and the storage alone, or it is a
    timed attempt that becomes the best and is stored. *)
Lemma step_best (w : World) (ev : Event) :
  Inv w →
  (bestRef (refs (step w ev)) = bestRef (refs w) ∧
   localStorage (host (step w ev)) = localStorage (host w))
  ∨ ∃ t, 0 ≤ t ∧
         ltNum t (orInfinity (bestRef (refs w))) = true ∧
         bestRef (refs (step w ev)) = JFin (inject_Z t) ∧
         localStorage (host (step w ev)) =
           <["best" := String_of t]> (localStorage (host w)).
Proof.
  intros HI.
  destruct (step_turn w ev HI)
    as [ ev | c t ev Hr Ha _ _ | t iso Hr _ | t iso Hg Hr _
       | id now rnd Hg Epf | id t0 t t' Hcal Ept | id t t' Hg Ept ];
    rewrite ?commit_refs, ?commit_host.
  - left. auto.
  - left. apply startGame_best.
  - left. destruct (stop_fields w) as (_ & _ & _ & Hrefs & Hst & _).
    unfold pushResult. cbn. rewrite Hrefs, Hst. auto.
  - destruct (stop_fields w) as (_ & _ & _ & Hrefs & Hst & _). cbv zeta.
    match goal with |- context [pushResult {| time := Some ?e |} ?X] =>
      pose proof (pushResult_timed_best e iso X) as Hp;
      pose proof (calibrated_nonneg (lightsOutTimeRef (refs w)) t
                    (systemLatency (ui w))) as He
    end.
    cbv zeta in Hp. cbn [refs host setGameState setReactionTime with_ui] in Hp.
    rewrite Hrefs, Hst in Hp. cbn [bestRef] in Hp.
    destruct (ltNum _ _) eqn:El; [right | left; exact Hp].
    eexists. split; [exact He|]. split; [exact El | exact Hp].
  - left. apply (frame_best 0 now rnd (cancelAnimationFrame id w)).
  - left. rewrite sampleCb_refs, sampleCb_storage. auto.
  - left. auto.
Qed.

Lemma run_best (storage : gmap string string) (b0 : JsNum)
    (evs : list Event) (w : World) :
  Inv w →
  (bestRef (refs w) = b0 ∧ localStorage (host w) = storage)
  ∨ (∃ t, bestIs storage t w) →
  (bestRef (refs (run w evs)) = b0 ∧ localStorage (host (run w evs)) = storage)
  ∨ (∃ t, bestIs storage t (run w evs)).
Proof.
  revert w. induction evs as [|ev evs IH]; intros w HI Hw; [exact Hw|].
  simpl. apply IH; [apply step_inv; exact HI|].
  destruct (step_best w ev HI) as [[Hb Hs] | (t & Ht & _ & Hb & Hs)].
  - rewrite Hb, Hs. destruct Hw as [Hw | (t & Ht & Hbt & Hst)]; [left; exact Hw|].
    right. exists t. unfold bestIs. rewrite Hb, Hs. auto.
  - right. exists t. unfold bestIs. rewrite Hb, Hs.
    split; [exact Ht|]. split; [reflexivity|].
    destruct Hw as [[_ ->] | (t1 & _ & _ & ->)]; [reflexivity|].
    apply insert_insert_eq.
Qed.

Lemma mount_storage (Number : string → JsNum) (storage : gmap string string)
    (t0 : Q) : localStorage (host (mount Number storage t0)) = storage.
Proof.
  unfold mount, loadBest. cbn [initialWorld host localStorage].
  destruct (storage !! "best") as [s|]; [destruct (bool_decide _)|];
    reflexivity.
Qed.

(** X11.  Along a session the storage is written at the key ["best"]
    only: either the best time and the storage are still as loaded, or
    the best time is the non-negative integer time of an attempt and the
    storage is the loaded one with that time's decimal string under
    ["best"]. *)
Theorem storage_follows_best (Number : string → JsNum)
    (storage : gmap string string) (t0 : Q) (evs : list Event) :
  let w0 := mount Number storage t0 in
  let w := run w0 evs in
  (bestRef (refs w) = bestRef (refs w0) ∧ localStorage (host w) = storage)
  ∨ ∃ t, 0 ≤ t ∧
         bestRef (refs w) = JFin (inject_Z t) ∧
         localStorage (host w) = <["best" := String_of t]> storage ∧
         localStorage (host w) !! "best" = Some (String_of t).
Proof.
  intros w0 w.
  destruct (run_best storage (bestRef (refs w0)) evs w0 (mount_inv _ _ _))
    as [H | (t & Ht & Hb & Hs)].
  - left. split; [reflexivity | apply mount_storage].
  - left. exact H.
  - right. exists t. fold w in Hb, Hs.
    split; [exact Ht|]. split; [exact Hb|]. split; [exact Hs|].
    rewrite Hs. apply lookup_insert_eq.
Qed.

(** X12.  A best time other than 0 never rises: after recording any
    attempt the best is at most what it was, and it is lower only for a
    timed attempt below it, whose time is then the best and is stored.
    A jump start changes neither the best time nor the storage. *)
Theorem nonzero_best_never_rises (w : World) (r : Result) (q : Q) :
  bestRef (refs w) = JFin q →
  ¬ (q == 0)%Q →
  let w' := pushResult r w in
  (∃ q', bestRef (refs w') = JFin q' ∧ (q' <= q)%Q ∧
         ((q' < q)%Q →
          ∃ t, time r = Some t ∧ jumpStart r = false ∧ q' = inject_Z t ∧
               localStorage (host w') !! "best" = Some (String_of t))) ∧
  (jumpStart r = true →
   bestRef (refs w') = bestRef (refs w) ∧
   localStorage (host w') = localStorage (host w)).
Proof.
  intros Hb Hq w'. subst w'.
  assert (Ho : orInfinity (JFin q) = JFin q).
  { unfold orInfinity, truthy. destruct (Qeq_bool q 0) eqn:E; [|reflexivity].
    apply Qeq_bool_iff in E. contradiction. }
  split; [|apply pushResult_jump_best].
  unfold pushResult. change (refs (setResults _ w)) with (refs w).
  rewrite Hb, Ho.
  destruct (negb (jumpStart r)) eqn:Ej; [destruct (time r) as [t|] eqn:Et|];
    [unfold ltNum; destruct (negb (Qle_bool q (inject_Z t))) eqn:El| |].
  - exists (inject_Z t). cbn.
    apply negb_true_iff in El.
    assert (Hlt : (inject_Z t < q)%Q).
    { apply Qnot_le_lt. intros Hc. apply Qle_bool_iff in Hc. congruence. }
    split; [reflexivity|]. split; [apply Qlt_le_weak; exact Hlt|].
    intros _. exists t. apply negb_true_iff in Ej.
    repeat split; try assumption. apply lookup_insert_eq.
  - exists q. cbn. split; [exact Hb|]. split; [apply Qle_refl|].
    intros Hc. exfalso. apply (Qlt_irrefl q Hc).
  - exists q. cbn. split; [exact Hb|]. split; [apply Qle_refl|].
    intros Hc. exfalso. apply (Qlt_irrefl q Hc).
  - exists q. cbn. split; [exact Hb|]. split; [apply Qle_refl|].
    intros Hc. exfalso. apply (Qlt_irrefl q Hc).
Qed.

(** ** Doubles that need no rounding *)

Lemma roundEven_comp (x y : Q) : (x == y)%Q → roundEven x = roundEven y.
Proof.
  intros E. apply Z.le_antisymm; apply roundEven_mono; rewrite E;
    apply Qle_refl.
Qed.

Lemma pow2_lt_inv (a b : Z) : (2 ^ a < 2 ^ b)%Q → a < b.
Proof.
  intros H. destruct (Z_lt_ge_dec a b) as [Hlt | Hge]; [exact Hlt|].
  exfalso. pose proof (pow2_le b a ltac:(lia)). lra.
Qed.

(** A number [m * 2^e] with a significand of at most 53 bits and an
    exponent in range is a double. *)
Lemma roundPos_exact (x : Q) (m e : Z) :
  (x == inject_Z m * 2 ^ e)%Q → 0 < m < 2 ^ 53 → -1074 ≤ e →
  (roundPos x == x)%Q.
Proof.
  intros Ex Hm He.
  assert (Hm0 : (0 < inject_Z m)%Q)
    by (change 0%Q with (inject_Z 0); rewrite <- Zlt_Qlt; lia).
  assert (Hm53 : (inject_Z m < 2 ^ 53)%Q).
  { rewrite <- (pow2_Z 53) by lia. rewrite <- Zlt_Qlt. lia. }
  pose proof (pow2_pos e) as Hpe.
  assert (Hx : (0 < x)%Q).
  { rewrite Ex. apply Qmult_lt_0_compat; assumption. }
  destruct (ilog2_spec x Hx) as [Lx _].
  assert (Hu : ulpExp x ≤ e).
  { assert (ilog2 x < 53 + e); [|unfold ulpExp; lia].
    apply pow2_lt_inv. apply Qle_lt_trans with x; [exact Lx|].
    rewrite Ex, pow2_add. apply Qmult_lt_compat_r; assumption. }
  set (u := ulpExp x) in *. unfold roundPos. fold u.
  assert (Ed : (x / 2 ^ u == inject_Z (m * 2 ^ (e - u)))%Q).
  { rewrite inject_Z_mult, (pow2_Z (e - u)) by lia.
    rewrite Ex. replace e with ((e - u) + u) at 1 by lia.
    rewrite pow2_add. field.
    intros E0. pose proof (pow2_pos u) as Hpu. rewrite E0 in Hpu.
    discriminate. }
  rewrite (roundEven_comp _ _ Ed), roundEven_Z.
  rewrite inject_Z_mult, (pow2_Z (e - u)) by lia.
  rewrite Ex, <- Qmult_assoc, <- pow2_add.
  replace (e - u + u) with e by lia. reflexivity.
Qed.

(** The integers up to [2^53] are doubles. *)
Lemma roundDouble_Z (n : Z) :
  - 2 ^ 53 ≤ n ≤ 2 ^ 53 → (roundDouble (inject_Z n) == inject_Z n)%Q.
Proof.
  intros Hn.
  assert (Hpos : ∀ p, Z.pos p ≤ 2 ^ 53 →
                 (roundPos (inject_Z (Z.pos p)) == inject_Z (Z.pos p))%Q).
  { intros p Hp. destruct (Z.eq_dec (Z.pos p) (2 ^ 53)) as [E | NE].
    - rewrite E. vm_compute. reflexivity.
    - apply (roundPos_exact _ (Z.pos p) 0); [|lia|lia].
      change (2 ^ 0)%Q with 1%Q. rewrite Qmult_1_r. reflexivity. }
  destruct n as [|p|p].
  - reflexivity.
  - change (roundDouble (inject_Z (Z.pos p)))
      with (roundPos (inject_Z (Z.pos p))).
    apply Hpos. lia.
  - change (roundDouble (inject_Z (Z.neg p)))
      with (- roundPos (inject_Z (Z.pos p)))%Q.
    rewrite (Hpos p) by lia. reflexivity.
Qed.

Lemma pretty_N_go_nonempty (x : N) (s : string) :
  s ≠ "" → pretty_N_go x s ≠ "".
Proof.
  revert s. induction (N.lt_wf_0 x) as [x _ IH]; intros s Hs.
  destruct (decide (x = 0%N)) as [-> | Hx].
  - rewrite pretty_N_go_0. exact Hs.
  - rewrite pretty_N_go_step by lia.
    apply IH; [apply N.div_lt; lia | discriminate].
Qed.

Lemma String_of_nonempty (t : Z) : String_of t ≠ "".
Proof.
  assert (HN : ∀ n : N, pretty n ≠ "").
  { intros n. unfold pretty, pretty_N. destruct (decide (n = 0%N)) as [|Hn].
    - discriminate.
    - rewrite pretty_N_go_step by lia.
      apply pretty_N_go_nonempty. discriminate. }
  unfold String_of, pretty, pretty_Z. destruct t as [|p|p].
  - discriminate.
  - apply HN.
  - discriminate.
Qed.

(** X13.  The best time survives a reload: when a session has changed
    the best time, the key ["best"] holds its decimal string, and a
    page mounted on the storage the session left, with a [Number] that
    reads that string back, starts with the same best time. *)
Theorem best_survives_reload (Number : string → JsNum)
    (storage : gmap string string) (t0 t1 : Q) (evs : list Event) :
  let w0 := mount Number storage t0 in
  let w := run w0 evs in
  bestRef (refs w) ≠ bestRef (refs w0) →
  ∃ t, 0 ≤ t ∧
       bestRef (refs w) = JFin (inject_Z t) ∧
       localStorage (host w) !! "best" = Some (String_of t) ∧
       (Number (String_of t) = JFin (inject_Z t) →
        bestRef (refs (mount Number (localStorage (host w)) t1)) =
        bestRef (refs w)).
Proof.
  intros w0 w Hne.
  destruct (run_best storage (bestRef (refs w0)) evs w0 (mount_inv _ _ _))
    as [[H _] | (t & Ht & Hb & Hs)].
  - left. split; [reflexivity | apply mount_storage].
  - contradiction.
  - fold w in Hb, Hs. exists t.
    assert (Hl : localStorage (host w) !! "best" = Some (String_of t))
      by (rewrite Hs; apply lookup_insert_eq).
    split; [exact Ht|]. split; [exact Hb|]. split; [exact Hl|].
    intros HN. unfold mount, loadBest. cbn [initialWorld host localStorage].
    rewrite Hl, bool_decide_eq_false_2 by apply String_of_nonempty.
    cbn. rewrite HN, Hb. reflexivity.
Qed.

(** ** The average and the hints *)

Lemma Math_round_mono (x y : Q) : (x <= y)%Q → Math_round x ≤ Math_round y.
Proof. intros H. unfold Math_round. apply Qfloor_resp_le. lra. Qed.

Lemma Math_round_comp (x y : Q) : (x == y)%Q → Math_round x = Math_round y.
Proof.
  intros E. unfold Math_round. apply Qfloor_comp. rewrite E. reflexivity.
Qed.

Lemma Math_round_Z (z : Z) : Math_round (inject_Z z) = z.
Proof.
  unfold Math_round.
  assert (H1 : z ≤ Qfloor (inject_Z z + (1 # 2))).
  { rewrite <- (Qfloor_Z z) at 1. apply Qfloor_resp_le. lra. }
  assert (H2 : (inject_Z (Qfloor (inject_Z z + (1 # 2))) < inject_Z (z + 1))%Q).
  { rewrite inject_Z_plus. change (inject_Z 1) with 1%Q.
    pose proof (Qfloor_le (inject_Z z + (1 # 2))). lra. }
  rewrite <- Zlt_Qlt in H2. lia.
Qed.

(** The exact sum of a list of integers, from the left. *)
Lemma foldl_add_acc (a : Z) (l : list Z) :
  foldl Z.add a l = a + foldl Z.add 0 l.
Proof.
  revert a. induction l as [|x l IH]; intros a; simpl; [lia|].
  rewrite (IH (a + x)), (IH (0 + x)). lia.
Qed.

Lemma foldl_add_bounds (lo hi : Z) (l : list Z) :
  Forall (λ t, lo ≤ t ≤ hi) l →
  Z.of_nat (length l) * lo ≤ foldl Z.add 0 l ≤ Z.of_nat (length l) * hi.
Proof.
  induction 1 as [|t l Ht _ IH]; [cbn; lia|].
  cbn [foldl]. rewrite foldl_add_acc. cbn [length]. lia.
Qed.

(** As long as the partial sums stay below [2^53] the sum of the times
    on doubles is their exact sum. *)
Lemma sumTimes_acc (hi : Z) (l : list Z) :
  Forall (λ t, 0 ≤ t ≤ hi) l →
  ∀ (acc : Q) (a : Z),
    (acc == inject_Z a)%Q → 0 ≤ a →
    a + Z.of_nat (length l) * hi ≤ 2 ^ 53 →
    (foldl (λ x b, fadd x (inject_Z b)) acc l
     == inject_Z (foldl Z.add a l))%Q.
Proof.
  induction 1 as [|t l Ht _ IH]; intros acc a Ea Ha Hb.
  - exact Ea.
  - cbn [foldl]. cbn [length] in Hb. rewrite Nat2Z.inj_succ in Hb.
    assert (Hn : 0 ≤ Z.of_nat (length l) * hi) by nia.
    apply IH; [|lia|lia].
    unfold fadd. apply Qeq_trans with (roundDouble (inject_Z (a + t))).
    + apply roundDouble_comp. rewrite Ea, inject_Z_plus. reflexivity.
    + apply roundDouble_Z. lia.
Qed.

Lemma sumTimes_exact (hi : Z) (l : list Z) :
  Forall (λ t, 0 ≤ t ≤ hi) l →
  Z.of_nat (length l) * hi ≤ 2 ^ 53 →
  (sumTimes l == inject_Z (foldl Z.add 0%Z l))%Q.
Proof.
  intros Hl Hb. apply (sumTimes_acc hi l Hl 0%Q 0); [reflexivity | lia | lia].
Qed.

(** The quotient of an integer [s] by [n > 0], against integer bounds. *)
Lemma mean_bounds (s n lo hi : Z) :
  0 < n → n * lo ≤ s ≤ n * hi →
  (inject_Z lo <= inject_Z s / inject_Z n)%Q ∧
  (inject_Z s / inject_Z n <= inject_Z hi)%Q.
Proof.
  intros Hn [H1 H2].
  assert (Hpos : (0 < inject_Z n)%Q)
    by (change 0%Q with (inject_Z 0); rewrite <- Zlt_Qlt; exact Hn).
  split.
  - apply Qle_shift_div_l; [exact Hpos|].
    rewrite <- inject_Z_mult, <- Zle_Qle. lia.
  - apply Qle_shift_div_r; [exact Hpos|].
    rewrite <- inject_Z_mult, <- Zle_Qle. lia.
Qed.

Lemma averageTime_Some (rs : list Result) :
  validTimes rs ≠ [] →
  averageTime rs =
  Some (Math_round (fdiv (sumTimes (validTimes rs))
                      (inject_Z (Z.of_nat (length (validTimes rs)))))) ∧
  0 < Z.of_nat (length (validTimes rs)).
Proof.
  intros Hne. unfold averageTime. cbv zeta.
  destruct (decide (length (validTimes rs) = 0%nat)) as [E|E].
  - apply length_zero_iff_nil in E. contradiction.
  - split; [reflexivity | lia].
Qed.

Lemma averageTime_None (rs : list Result) :
  validTimes rs = [] → averageTime rs = None.
Proof. intros E. unfold averageTime. rewrite E. reflexivity. Qed.

(** X14.  The average shown is [NaN] exactly when the history holds no
    timed attempt; otherwise, for times whose sum stays below [2^53],
    it lies between the smallest and the largest timed attempt of the
    history.  Jump starts do not enter it. *)
Theorem average_between_extremes (rs : list Result) (lo hi : Z) :
  Forall (λ t, lo ≤ t ≤ hi) (validTimes rs) →
  0 ≤ lo →
  Z.of_nat (length (validTimes rs)) * hi ≤ 2 ^ 53 →
  match averageTime rs with
  | Some a => validTimes rs ≠ [] ∧ lo ≤ a ≤ hi
  | None => validTimes rs = []
  end ∧
  (∀ r, jumpStart r = true → averageTime (r :: rs) = averageTime rs).
Proof.
  intros Hb Hlo Hsum. split.
  - destruct (validTimes rs) as [|t l] eqn:E.
    + rewrite averageTime_None by exact E. reflexivity.
    + assert (Hne : validTimes rs ≠ []) by (rewrite E; discriminate).
      destruct (averageTime_Some rs Hne) as [-> Hn]. rewrite E in *.
      split; [discriminate|].
      set (n := Z.of_nat (length (t :: l))) in *.
      assert (Hlohi : lo ≤ hi)
        by (apply Forall_inv in Hb; lia).
      assert (Hb0 : Forall (λ t, 0 ≤ t ≤ hi) (t :: l))
        by (eapply Forall_impl; [exact Hb | simpl; lia]).
      pose proof (sumTimes_exact hi (t :: l) Hb0 Hsum) as Es.
      pose proof (foldl_add_bounds lo hi (t :: l) Hb) as Hs. fold n in Hs.
      destruct (mean_bounds (foldl Z.add 0 (t :: l)) n lo hi Hn ltac:(lia))
        as [M1 M2].
      assert (Em : Math_round (fdiv (sumTimes (t :: l)) (inject_Z n))
                   = Math_round (roundDouble
                                   (inject_Z (foldl Z.add 0 (t :: l))
                                    / inject_Z n)))
        by (apply Math_round_comp, roundDouble_comp; rewrite Es; reflexivity).
      rewrite Em.
      assert (El : Math_round (roundDouble (inject_Z lo)) = lo).
      { rewrite (Math_round_comp _ _ (roundDouble_Z lo ltac:(nia))).
        apply Math_round_Z. }
      assert (Eh : Math_round (roundDouble (inject_Z hi)) = hi).
      { rewrite (Math_round_comp _ _ (roundDouble_Z hi ltac:(nia))).
        apply Math_round_Z. }
      split.
      * apply Z.le_trans with (Math_round (roundDouble (inject_Z lo)));
          [lia | apply Math_round_mono, roundDouble_mono, M1].
      * apply Z.le_trans with (Math_round (roundDouble (inject_Z hi)));
          [apply Math_round_mono, roundDouble_mono, M2 | lia].
  - intros r Hj.
    assert (Hf : filter isValid (r :: rs) = filter isValid rs).
    { apply filter_cons_False. unfold isValid. rewrite Hj.
      intros [F _]. discriminate. }
    unfold averageTime, validTimes. rewrite Hf. reflexivity.
Qed.


(** X16.  The hint slot of the result panel: it shows a hint only for a
    time above 250 ms, so of the four hints of [getHint] only the two
    for slow reactions are ever shown; for a time of 0 ms the slot
    renders the number 0; otherwise it is empty. *)
Theorem hint_slot_cases (reactionTime : option Z) :
  match hintSlot reactionTime with
  | SlotHint text =>
      ∃ t, reactionTime = Some t ∧ 250 < t ∧
           text = (if bool_decide (300 < t) then hintFocus else hintGood) ∧
           text ≠ hintExcellent ∧ text ≠ hintOutstanding
  | SlotNumber n => n = 0 ∧ reactionTime = Some 0
  | SlotEmpty =>
      reactionTime = None ∨ ∃ t, reactionTime = Some t ∧ t ≠ 0 ∧ t ≤ 250
  end.
Proof.
  destruct reactionTime as [t|]; [|left; reflexivity]. unfold hintSlot.
  destruct (bool_decide (t = 0)) eqn:E0.
  - apply bool_decide_eq_true in E0. subst. auto.
  - apply bool_decide_eq_false in E0.
    destruct (bool_decide (250 < t)) eqn:E250.
    + apply bool_decide_eq_true in E250. exists t.
      split; [reflexivity|]. split; [exact E250|]. unfold getHint.
      rewrite (bool_decide_eq_true_2 (250 < t)) by exact E250.
      destruct (bool_decide (300 < t)); repeat split; discriminate.
    + apply bool_decide_eq_false in E250. right. exists t.
      repeat split; [exact E0 | lia].
Qed.

(** ** The rows of the history *)

Lemma imap_labels {A : Type} (n : Z) (l : list A) :
  imap (λ index _, n - Z.of_nat index) l =
  (λ index, n - Z.of_nat index) <$> seq 0 (length l).
Proof.
  revert n. induction l as [|x l IH]; intros n; [reflexivity|].
  cbn [imap length seq fmap list_fmap]. f_equal.
  rewrite <- fmap_S_seq, <- list_fmap_compose.
  transitivity (imap (λ index (_ : A), n - 1 - Z.of_nat index) l).
  - apply imap_ext. intros i y _. cbn. lia.
  - rewrite IH. apply list_fmap_ext. intros i y _. cbn. lia.
Qed.

(** X17.  The rows of the history are numbered from its length down to
    1, newest first, and the history holds at most ten attempts: the
    newest row is numbered with the count of attempts shown, never
    above 10, however many attempts were made. *)
Theorem attempt_labels_count_down (w : World) :
  reachable w →
  let rs := results (ui w) in
  attemptLabels rs =
    (λ index, Z.of_nat (length rs) - Z.of_nat index) <$> seq 0 (length rs) ∧
  (∀ l, l ∈ attemptLabels rs → 1 ≤ l ≤ Z.of_nat (length rs) ∧ l ≤ 10) ∧
  (∀ r rest, rs = r :: rest →
     head (attemptLabels rs) = Some (Z.of_nat (length rs))).
Proof.
  intros Hw rs. pose proof (results_bounded w Hw) as Hb. fold rs in Hb.
  unfold attemptLabels. rewrite imap_labels.
  split; [reflexivity|]. split.
  - intros l Hl. apply list_elem_of_fmap in Hl as (i & -> & Hi).
    apply elem_of_seq in Hi. lia.
  - intros r rest E. rewrite E. cbn. f_equal; lia.
Qed.

(** ** The further properties at concrete sessions *)

Lemma gameState_transitions_witness :
  allowed (gameState (ui countdownPage))
    (gameState (ui (step countdownPage (EvReaction 1500 "r")))) = true.
Proof.
  apply gameState_transitions, reachable_run, reach_mount.
Defined.

Lemma signal_outside_round_starts_one_witness :
  gameState (ui playedPage) = result ∧
  rafs (host (step playedPage (EvReaction 20000 "again"))) =
    [(nextRaf (host playedPage), 0)].
Proof.
  assert (Hg : gameState (ui playedPage) = result)
    by (vm_compute; reflexivity).
  split; [exact Hg|].
  apply (signal_outside_round_starts_one playedPage 20000 "again"
           (reachable_run _ _ (reach_mount _ _ _)) (or_intror Hg)).
Defined.

Lemma one_attempt_per_round_witness :
  gameState (ui (step countdownPage (EvReaction 1500 "r"))) = result ∧
  ∃ r, results (ui (step countdownPage (EvReaction 1500 "r"))) =
       take 10 (r :: results (ui countdownPage)).
Proof.
  destruct (one_attempt_per_round countdownPage (EvReaction 1500 "r")
              (reachable_run _ _ (reach_mount _ _ _)))
    as [(_ & Hg & Hr) | [[Hg | Hg] _]].
  - split; assumption.
  - vm_compute in Hg. discriminate.
  - exfalso. apply Hg. vm_compute. reflexivity.
Defined.

Lemma attempts_well_formed_witness :
  let r := {| time := Some 150; jumpStart := false; timestamp := "second" |} in
  r ∈ results (ui playedPage) ∧
  ((jumpStart r = true ∧ time r = None) ∨
   (jumpStart r = false ∧ ∃ t, time r = Some t ∧ 0 ≤ t)).
Proof.
  intros r.
  assert (Hin : r ∈ results (ui playedPage)) by (vm_compute; left).
  split; [exact Hin|].
  apply (attempts_well_formed playedPage r
           (reachable_run _ _ (reach_mount _ _ _)) Hin).
Defined.

Lemma panel_shows_newest_attempt_witness :
  ∃ r, head (results (ui playedPage)) = Some r ∧
       jumpStart r = jumpStartFlag (ui playedPage) ∧
       time r = reactionTime (ui playedPage).
Proof.
  pose proof (panel_shows_newest_attempt playedPage
                (reachable_run _ _ (reach_mount _ _ _))) as H.
  assert (E : gameState (ui playedPage) = result) by (vm_compute; reflexivity).
  rewrite E in H. exact H.
Defined.

Lemma lamps_by_state_witness :
  gameState (ui waitingPage) = waiting ∧
  lamps waitingPage = [true; true; true; true; true].
Proof.
  assert (E : gameState (ui waitingPage) = waiting)
    by (vm_compute; reflexivity).
  split; [exact E|].
  pose proof (lamps_by_state waitingPage
                (reachable_run _ _ (reach_mount _ _ _))) as [_ H].
  rewrite E in H. apply H.
Defined.

Lemma tick_continues_or_arms_witness :
  gameState (ui (step countdownPage (EvFrame 3 4026 (1 # 2)))) = waiting.
Proof.
  destruct (tick_continues_or_arms countdownPage 3 4026 (1 # 2))
    as [(Hlt & _) | (_ & Hg & _)].
  - apply reachable_run, reach_mount.
  - vm_compute. eexists. reflexivity.
  - unfold Qle. simpl. lia.
  - unfold Qlt. simpl. lia.
  - vm_compute in Hlt. discriminate.
  - exact Hg.
Defined.

Lemma pending_callbacks_bounded_witness :
  (length (rafs (host countdownPage)) ≤ 1)%nat ∧
  (length (timers (host countdownPage)) ≤ 2)%nat.
Proof.
  destruct (pending_callbacks_bounded countdownPage
              (reachable_run _ _ (reach_mount _ _ _)))
    as (H1 & _ & _ & H2 & _).
  split; assumption.
Defined.

Lemma calibration_runs_once_witness :
  isCalibrating (ui playedPage) = false ∧
  systemLatency (ui (step playedPage (EvReaction 20000 "again"))) =
  systemLatency (ui playedPage).
Proof.
  assert (Hc : isCalibrating (ui playedPage) = false)
    by (vm_compute; reflexivity).
  split; [exact Hc|].
  destruct (calibration_runs_once playedPage (EvReaction 20000 "again")
              (reachable_run _ _ (reach_mount _ _ _))) as [_ H].
  apply (H Hc).
Defined.

Lemma calibration_callback_pending_witness :
  isCalibrating (ui countdownPage) = true ∧
  ∃ id t0, pendingTimer id countdownPage = Some (SampleCb t0).
Proof.
  assert (Hc : isCalibrating (ui countdownPage) = true)
    by (vm_compute; reflexivity).
  split; [exact Hc|].
  destruct (calibration_callback_pending countdownPage
              (reachable_run _ _ (reach_mount _ _ _)) Hc)
    as (_ & id & t0 & H & _).
  exists id, t0. exact H.
Defined.

Lemma nonzero_best_never_rises_witness :
  bestRef (refs playedPage) = JFin 150 ∧
  ∃ q', bestRef (refs (pushResult
                         {| time := Some 120; jumpStart := false;
                            timestamp := "third" |} playedPage)) = JFin q' ∧
        (q' <= 150)%Q.
Proof.
  assert (Hb : bestRef (refs playedPage) = JFin 150)
    by (vm_compute; reflexivity).
  split; [exact Hb|].
  destruct (nonzero_best_never_rises playedPage
              {| time := Some 120; jumpStart := false; timestamp := "third" |}
              150 Hb) as [(q' & H1 & H2 & _) _].
  - unfold Qeq. simpl. lia.
  - exists q'. split; assumption.
Defined.

Lemma best_survives_reload_witness :
  let Number := λ s : string,
    if bool_decide (s = "150") then JFin 150 else JNaN in
  let w := run (mount Number ∅ 0%Q) (sessionZeroBest ++ secondRound) in
  bestRef (refs (mount Number (localStorage (host w)) 0%Q)) = bestRef (refs w).
Proof.
  intros Number w.
  destruct (best_survives_reload Number ∅ 0%Q 0%Q
              (sessionZeroBest ++ secondRound))
    as (t & _ & Hb & _ & Hreload).
  - vm_compute. discriminate.
  - fold w in Hb, Hreload.
    assert (E : bestRef (refs w) = JFin 150) by (vm_compute; reflexivity).
    rewrite E in Hb. unfold inject_Z in Hb. injection Hb as Ht. subst t.
    apply Hreload. vm_compute. reflexivity.
Defined.

Lemma average_between_extremes_witness :
  let rs :=
    [ {| time := Some 150; jumpStart := false; timestamp := "c" |};
      {| time := None; jumpStart := true; timestamp := "b" |};
      {| time := Some 101; jumpStart := false; timestamp := "a" |} ] in
  match averageTime rs with
  | Some a => validTimes rs ≠ [] ∧ 101 ≤ a ≤ 150
  | None => validTimes rs = []
  end.
Proof.
  intros rs.
  apply (average_between_extremes rs 101 150).
  - repeat constructor; cbn; lia.
  - lia.
  - vm_compute. discriminate.
Defined.


Lemma attempt_labels_count_down_witness :
  attemptLabels (results (ui playedPage)) = [2; 1].
Proof.
  destruct (attempt_labels_count_down playedPage
              (reachable_run _ _ (reach_mount _ _ _))) as (H & _).
  rewrite H. vm_compute. reflexivity.
Defined.
